(** * bandwidth-buddy: the chat session manager of the dashboard server

    A shallow embedding of [ChatSessionManager] (the per-packet chat
    history store of the Node server) and of the store-related part of
    the two request handlers that drive it, followed by the properties
    of trimming, expiry and the system-prompt switch.

    Conventions of the embedding:
    - a JavaScript string is a [string]; every character stands for one
      UTF-16 code unit in the range 0..255, so [String.length] is the
      JavaScript [.length];
    - timestamps and token counts are [Z];
    - [Date.now()] is an explicit argument [now]: a stretch of code that
      runs without yielding (a method call, or the part of a handler
      between two awaits) reads one clock value;
    - the [Map] of sessions is a [gmap string Session]; a method that
      mutates the manager returns the new manager next to its result;
    - [null]/[undefined] results are [None]; logging is left out. *)

From Stdlib Require Import ZArith Ascii String.
From stdpp Require Import gmap strings list fin_maps pretty.

Local Open Scope string_scope.
Local Open Scope Z_scope.

(** ** JavaScript strings *)

Module JS.

(** The double quote character, code unit 0x22. *)
Definition dquote : ascii := Ascii false true false false false true false false.
(** The asterisk, code unit 0x2A. *)
Definition asterisk : ascii := Ascii false true false true false true false false.
(** The backslash character, code unit 0x5C. *)
Definition backslash : ascii := Ascii false false true true true false true false.

Definition str1 (c : ascii) : string := String c EmptyString.

(** White space and line terminators removed by [String.prototype.trim]
    among the code units below 256: TAB, LF, VT, FF, CR, SP and NBSP. *)
Definition is_space (c : ascii) : bool :=
  let n := N_of_ascii c in
  (N.leb 9 n && N.leb n 13) || N.eqb n 32 || N.eqb n 160.

Fixpoint trimStart (s : string) : string :=
  match s with
  | EmptyString => EmptyString
  | String c s' => if is_space c then trimStart s' else s
  end.

Fixpoint trimEnd (s : string) : string :=
  match s with
  | EmptyString => EmptyString
  | String c s' =>
      match trimEnd s' with
      | EmptyString => if is_space c then EmptyString else str1 c
      | t => String c t
      end
  end.

(** [s.trim()] *)
Definition trim (s : string) : string := trimEnd (trimStart s).

Definition hex_digit (n : N) : ascii :=
  if N.ltb n 10 then ascii_of_N (48 + n) else ascii_of_N (87 + n).

(** The escape of one code unit inside a JSON string literal, as
    [JSON.stringify] writes it (QuoteJSONString). *)
Definition quote_char (c : ascii) : string :=
  let n := N_of_ascii c in
  if N.eqb n 34 then String backslash (str1 dquote)
  else if N.eqb n 92 then String backslash (str1 backslash)
  else if N.eqb n 8 then String backslash "b"
  else if N.eqb n 9 then String backslash "t"
  else if N.eqb n 10 then String backslash "n"
  else if N.eqb n 12 then String backslash "f"
  else if N.eqb n 13 then String backslash "r"
  else if N.ltb n 32 then
    String backslash ("u00" +:+ String (hex_digit (N.div n 16)) (str1 (hex_digit (N.modulo n 16))))
  else str1 c.

Fixpoint quote_body (s : string) : string :=
  match s with
  | EmptyString => EmptyString
  | String c s' => quote_char c +:+ quote_body s'
  end.

(** [JSON.stringify(s)] for a string [s]. *)
Definition quote (s : string) : string :=
  String dquote (quote_body s +:+ str1 dquote).

(** [c.repeat(n)] for a one-character string. *)
Fixpoint repeat (c : ascii) (n : nat) : string :=
  match n with
  | O => EmptyString
  | S n' => String c (repeat c n')
  end.

(** [Math.ceil(a / b)] on integers, for a divisor [b > 0]. *)
Definition ceil_div (a b : Z) : Z := - ((- a) / b).

End JS.

(** ** Messages and sessions *)

Record Message := mkMessage { role : string; content : string }.

Record Session := mkSession {
  messages : list Message;
  createdAt : Z;
  lastAccess : Z;
  packetId : string
}.

#[global] Instance Message_eq_dec : EqDecision Message.
Proof. solve_decision. Defined.

#[global] Instance Session_eq_dec : EqDecision Session.
Proof. solve_decision. Defined.

(** [JSON.stringify(msg)] of a [{ role, content }] object: the keys come
    in insertion order. *)
Definition JSON_stringify (msg : Message) : string :=
  "{" +:+ JS.quote "role" +:+ ":" +:+ JS.quote (role msg) +:+ ","
      +:+ JS.quote "content" +:+ ":" +:+ JS.quote (content msg) +:+ "}".

(** ** The manager *)

Record ChatSessionManager := mkManager {
  sessions : gmap string Session;
  ttl : Z;
  maxContextTokens : Z;
  charsPerToken : Z
}.

Definition CHAT_SESSION_TTL : Z := 3600000.

(** [new ChatSessionManager(ttl)] *)
Definition newChatSessionManager (ttl : Z) : ChatSessionManager :=
  {| sessions := ∅; ttl := ttl; maxContextTokens := 6000; charsPerToken := 4 |}.

Definition with_sessions (mgr : ChatSessionManager) (m : gmap string Session)
  : ChatSessionManager :=
  {| sessions := m; ttl := ttl mgr;
     maxContextTokens := maxContextTokens mgr; charsPerToken := charsPerToken mgr |}.

Definition with_messages (s : Session) (l : list Message) : Session :=
  {| messages := l; createdAt := createdAt s;
     lastAccess := lastAccess s; packetId := packetId s |}.

Definition with_lastAccess (s : Session) (t : Z) : Session :=
  {| messages := messages s; createdAt := createdAt s;
     lastAccess := t; packetId := packetId s |}.

(** [estimateTokens(text)] *)
Definition estimateTokens (mgr : ChatSessionManager) (text : string) : Z :=
  JS.ceil_div (Z.of_nat (String.length text)) (charsPerToken mgr).

(** The cost the manager charges for one message:
    [estimateTokens(JSON.stringify(msg))]. *)
Definition msgTokens (mgr : ChatSessionManager) (msg : Message) : Z :=
  estimateTokens mgr (JSON_stringify msg).

(** [getTotalTokens(messages)] *)
Fixpoint getTotalTokens (mgr : ChatSessionManager) (msgs : list Message) : Z :=
  match msgs with
  | [] => 0
  | msg :: rest => msgTokens mgr msg + getTotalTokens mgr rest
  end.

(** The loop of [trimToContextWindow]: it walks the other messages from
    the newest to the oldest ([newestFirst] is [otherMessages] read from
    its last index down), pushes each one that still fits and breaks at
    the first one that does not.  The result is what was pushed, in push
    order. *)
Fixpoint fitRecent (mgr : ChatSessionManager) (availableTokens totalTokens : Z)
    (newestFirst : list Message) : list Message :=
  match newestFirst with
  | [] => []
  | msg :: older =>
      if decide (totalTokens + msgTokens mgr msg ≤ availableTokens)
      then msg :: fitRecent mgr availableTokens (totalTokens + msgTokens mgr msg) older
      else []
  end.

(** [trimToContextWindow(messages)] *)
Definition trimToContextWindow (mgr : ChatSessionManager) (msgs : list Message)
  : list Message :=
  match msgs with
  | [] => msgs
  | systemPrompt :: otherMessages =>
      let systemTokens := msgTokens mgr systemPrompt in
      let availableTokens := maxContextTokens mgr - systemTokens - 500 in
      if decide (maxContextTokens mgr - 500 < systemTokens) then [systemPrompt]
      else
        let trimmedMessages :=
          systemPrompt :: fitRecent mgr availableTokens 0 (reverse otherMessages) in
        systemPrompt :: reverse (tail trimmedMessages)
  end.

(** ** The two system prompts *)

(** [SYSTEM_PROMPT]: the evaluation instructions, a template literal of the server. *)
Definition SYSTEM_PROMPT : string :=
  "
You are a network security analyst. Evaluate ONLY the TARGET PACKET marked in the input. Other packets are context only.

REQUIRED RESPONSE FORMAT (you MUST include all these fields in this order):

PACKET_IDENTIFICATION: Evaluating Packet ID: [id], Protocol: [protocol], Source: [src]:[port], Destination: [dst]:[port], Timestamp: [time]

SEVERITY: [number 0-100]
(0 = harmless, 100 = extremely dangerous/threatening)
YOU NEED TO PROVIDE SEVERITY AS A PERCENTAGE BETWEEN 0 AND 100 (ONLY THE NUMBER, NO OTHER TEXT)
CONFIDENCE: [number 0-100]
YOU NEED TO PROVIDE CONFIDENCE AS A PERCENTAGE BETWEEN 0 AND 100 (ONLY THE NUMBER, NO OTHER TEXT)
(0 = uncertain, 100 = completely certain)

DO NOT USE ANY LANGUAGE THAT IS NOT ENGLISH

RATIONALE: [3-4 sentences justifying your severity and confidence ratings, explaining what the connection might serve, and potential further action]

CRITICAL REQUIREMENTS:
- SEVERITY and CONFIDENCE MUST be the FIRST two fields after PACKET_IDENTIFICATION
- Both must be numeric values 0-100 (not words like " +:+ JS.str1 JS.dquote +:+ "low" +:+ JS.str1 JS.dquote +:+ " or " +:+ JS.str1 JS.dquote +:+ "high" +:+ JS.str1 JS.dquote +:+ ")
- ABSOLUTELY NO MARKDOWN - NO ASTERISKS (" +:+ JS.str1 JS.asterisk +:+ ") ANYWHERE in your response
- Use plain text only with field names in ALL CAPS followed by a colon
".

(** [CHAT_SYSTEM_PROMPT]: the instructions for follow-up questions. *)
Definition CHAT_SYSTEM_PROMPT : string :=
  "
You are a network security analyst helping a user understand a packet evaluation. 
You have already evaluated a packet and provided an initial assessment.

CRITICAL RESTRICTION: You MUST ONLY respond to questions about cybersecurity, network security, packet analysis, threat assessment, and related security topics. 

If the user asks about anything unrelated to cybersecurity or network security (e.g., general computing, unrelated topics, personal questions, etc.), politely decline and redirect them to ask about the packet's security implications instead.

The user may ask follow-up questions about:
- The packet's threat level and why
- What the packet might be doing from a security perspective
- Security recommendations for further action
- Technical security details about the packet
- Comparison with other packets from a security standpoint
- Potential vulnerabilities or attack vectors
- Network security best practices related to this packet

Answer their questions clearly and concisely, referencing the packet details when relevant.
You can reference the initial evaluation if needed, but focus on answering the current question.

Remember: ONLY answer cybersecurity and network security questions. Decline all other topics.
".

(** ** Methods of the manager *)

(** [getSession(packetId)]: an expired session is deleted from the map
    and reported as absent. *)
Definition getSession (mgr : ChatSessionManager) (now : Z) (packetId : string)
  : ChatSessionManager * option Session :=
  match sessions mgr !! packetId with
  | Some session =>
      if decide (ttl mgr < now - lastAccess session)
      then (with_sessions mgr (delete packetId (sessions mgr)), None)
      else (mgr, Some session)
  | None => (mgr, None)
  end.

(** [createSession(packetId, initialSystemPrompt)] *)
Definition createSession (mgr : ChatSessionManager) (now : Z) (packetId : string)
    (initialSystemPrompt : string) : ChatSessionManager * Session :=
  let session :=
    {| messages := [ mkMessage "system" (JS.trim initialSystemPrompt) ];
       createdAt := now;
       lastAccess := now;
       packetId := packetId |} in
  (with_sessions mgr (<[packetId := session]> (sessions mgr)), session).

(** The prompt [addMessage] picks for a session it has to create:
    [systemPrompt || (role === "user" && !this.sessions.has(packetId)
                      ? SYSTEM_PROMPT : CHAT_SYSTEM_PROMPT)].
    An absent or empty [systemPrompt] is falsy. *)
Definition defaultPrompt (mgr : ChatSessionManager) (packetId role : string)
    (systemPrompt : option string) : string :=
  match systemPrompt with
  | Some (String c p) => String c p
  | _ =>
      if bool_decide (role = "user") && bool_decide (sessions mgr !! packetId = None)
      then SYSTEM_PROMPT else CHAT_SYSTEM_PROMPT
  end.

(** [addMessage(packetId, role, content, systemPrompt = null)].  The
    session object lives in the map under [packetId], so the push and
    the new [lastAccess] are written back under that key. *)
Definition addMessage (mgr : ChatSessionManager) (now : Z) (packetId role content : string)
    (systemPrompt : option string) : ChatSessionManager * Session :=
  let '(mgr1, found) := getSession mgr now packetId in
  let '(mgr2, session) :=
    match found with
    | Some session => (mgr1, session)
    | None =>
        createSession mgr1 now packetId (defaultPrompt mgr1 packetId role systemPrompt)
    end in
  let session' :=
    with_lastAccess (with_messages session (messages session ++ [mkMessage role content])) now in
  (with_sessions mgr2 (<[packetId := session']> (sessions mgr2)), session').

(** [getMessages(packetId)]: the stored list is replaced by the trimmed
    one when the total exceeds [maxContextTokens]; the array returned is
    the stored one. *)
Definition getMessages (mgr : ChatSessionManager) (now : Z) (packetId : string)
  : ChatSessionManager * option (list Message) :=
  let '(mgr1, found) := getSession mgr now packetId in
  match found with
  | None => (mgr1, None)
  | Some session =>
      let totalTokens := getTotalTokens mgr1 (messages session) in
      if decide (maxContextTokens mgr1 < totalTokens)
      then
        let trimmed := trimToContextWindow mgr1 (messages session) in
        (with_sessions mgr1 (<[packetId := with_messages session trimmed]> (sessions mgr1)),
         Some trimmed)
      else (mgr1, Some (messages session))
  end.

(** [cleanupOldSessions()]: one pass over the entries of the map, deleting
    each expired one. *)
Definition cleanupOldSessions (mgr : ChatSessionManager) (now : Z) : ChatSessionManager :=
  with_sessions mgr
    (map_fold
       (fun packetId session acc =>
          if decide (ttl mgr < now - lastAccess session) then delete packetId acc else acc)
       (sessions mgr) (sessions mgr)).

(** [clearSession(packetId)] *)
Definition clearSession (mgr : ChatSessionManager) (packetId : string)
  : ChatSessionManager * bool :=
  (with_sessions mgr (delete packetId (sessions mgr)),
   bool_decide (is_Some (sessions mgr !! packetId))).

(** ** The request handlers, as far as they touch the manager *)

(** The message a follow-up installs at index 0. *)
Definition chatAnchor : Message := mkMessage "system" (JS.trim CHAT_SYSTEM_PROMPT).

(** The message every evaluation session starts with. *)
Definition evaluationAnchor : Message := mkMessage "system" (JS.trim SYSTEM_PROMPT).

(** [messages[0] = { role: "system", content: CHAT_SYSTEM_PROMPT.trim() }]
    on the array [getMessages] returned, which is the array stored in
    the session under [packetId]. *)
Definition switchToChat (mgr : ChatSessionManager) (packetId : string) : ChatSessionManager :=
  match sessions mgr !! packetId with
  | Some session =>
      with_sessions mgr
        (<[packetId := with_messages session (<[0%nat := chatAnchor]> (messages session))]>
           (sessions mgr))
  | None => mgr
  end.

(** [evaluatePacketWithContext] up to the request to the model:
    [userMessage] is the formatted packet context.  Returns the messages
    sent to the model. *)
Definition evaluateBegin (mgr : ChatSessionManager) (now : Z) (packetId userMessage : string)
  : ChatSessionManager * option (list Message) :=
  let '(mgr1, found) := getMessages mgr now packetId in
  let mgr2 :=
    match found with
    | Some _ => mgr1
    | None =>
        let mgr' := fst (createSession mgr1 now packetId SYSTEM_PROMPT) in
        fst (getMessages mgr' now packetId)
    end in
  let mgr3 := fst (addMessage mgr2 now packetId "user" userMessage None) in
  getMessages mgr3 now packetId.

(** [evaluatePacketWithContext] after the model answered with [response]. *)
Definition evaluateEnd (mgr : ChatSessionManager) (now : Z) (packetId response : string)
  : ChatSessionManager :=
  fst (addMessage mgr now packetId "assistant" response None).

(** [POST /api/chat/ask] up to the request to the model.  [None] stands
    for the 400 and 404 replies, which leave before anything is added. *)
Definition chatAskBegin (mgr : ChatSessionManager) (now : Z) (packetId question : string)
  : ChatSessionManager * option (list Message) :=
  if bool_decide (packetId = "") then (mgr, None)
  else if bool_decide (JS.trim question = "") then (mgr, None)
  else
    let '(mgr1, found) := getMessages mgr now packetId in
    match found with
    | None => (mgr1, None)
    | Some msgs =>
        let mgr2 := if decide (length msgs = 3%nat) then switchToChat mgr1 packetId else mgr1 in
        let mgr3 := fst (addMessage mgr2 now packetId "user" (JS.trim question) None) in
        getMessages mgr3 now packetId
    end.

(** [POST /api/chat/ask] after the model answered with [response]. *)
Definition chatAskEnd (mgr : ChatSessionManager) (now : Z) (packetId response : string)
  : ChatSessionManager :=
  fst (addMessage mgr now packetId "assistant" response None).

(** [GET /api/chat/:packetId]: the history without the system prompt. *)
Definition chatHistory (mgr : ChatSessionManager) (now : Z) (packetId : string)
  : ChatSessionManager * option (list Message) :=
  let '(mgr1, found) := getMessages mgr now packetId in
  (mgr1, tail <$> found).

(** ** Memory statistics *)

(** [x.toFixed(2)] for [x = num / den], where [den] is a power of two,
    so that the quotient is exact: the integer nearest to [100 x], the
    larger one on a tie, written with two decimals. *)
Definition toFixed2 (num den : N) : string :=
  let n := ((200 * num + den) / (2 * den))%N in
  pretty (n / 100)%N +:+ "." +:+ pretty (n mod 100 / 10)%N +:+ pretty (n mod 10)%N.

(** The inner loop of [getStats]: [totalChars += JSON.stringify(msg).length]. *)
Definition addChars (totalChars : nat) (msgs : list Message) : nat :=
  foldl (fun total msg => (total + String.length (JSON_stringify msg))%nat) totalChars msgs.

(** The outer loop of [getStats] over the sessions: the pair
    [(totalMessages, totalChars)]. *)
Definition countSessions (m : gmap string Session) : nat * nat :=
  map_fold
    (fun _ session totals =>
       ((totals.1 + length (messages session))%nat, addChars totals.2 (messages session)))
    (0%nat, 0%nat) m.

(** [estimatedMemoryBytes] of [getStats]. *)
Definition estimatedMemoryBytes (mgr : ChatSessionManager) : nat :=
  ((countSessions (sessions mgr)).2 + size (sessions mgr) * 200)%nat.

Record Stats := mkStats {
  activeSessions : nat;
  totalMessages : nat;
  estimatedMemoryMB : string;
  estimatedMemoryKB : string;
  description : string
}.

(** [getStats()] *)
Definition getStats (mgr : ChatSessionManager) : Stats :=
  {| activeSessions := size (sessions mgr);
     totalMessages := (countSessions (sessions mgr)).1;
     estimatedMemoryMB := toFixed2 (N.of_nat (estimatedMemoryBytes mgr)) (1024 * 1024);
     estimatedMemoryKB := toFixed2 (N.of_nat (estimatedMemoryBytes mgr)) 1024;
     description :=
       "Chat context memory - stores conversation history for each packet evaluation" |}.

(** ** Formatting a packet for the model *)

(** The values a field of a packet can hold in this embedding:
    [undefined], [null], a string, and a number that is an integer of
    magnitude below 10^21 (the numbers a template literal prints in
    plain decimal: identifiers, ports, sizes).  Larger magnitudes,
    fractions, booleans, arrays and objects are outside the embedding. *)
Inductive JSValue :=
  | JSUndefined
  | JSNull
  | JSNumber (n : Z)
  | JSString (s : string).

(** Truthiness, as [if (v)] and [v || w] read it. *)
Definition truthy (v : JSValue) : bool :=
  match v with
  | JSUndefined | JSNull => false
  | JSNumber n => negb (Z.eqb n 0)
  | JSString s => negb (bool_decide (s = ""))
  end.

(** The text a template literal puts for a value; for [JSNumber n] it
    is the decimal numeral, which is what JavaScript prints when the
    magnitude of [n] is below 10^21. *)
Definition toString (v : JSValue) : string :=
  match v with
  | JSUndefined => "undefined"
  | JSNull => "null"
  | JSNumber n => pretty n
  | JSString s => s
  end.

(** [v || 'N/A'] *)
Definition orNA (v : JSValue) : JSValue :=
  if truthy v then v else JSString "N/A".

Record Packet := mkPacket {
  id : JSValue;
  protocol : JSValue;
  src_ip : JSValue;
  src_port : JSValue;
  dst_ip : JSValue;
  dst_port : JSValue;
  size_ : JSValue;
  flags : JSValue;
  payload_preview : JSValue;
  raw_data : JSValue;
  summary : JSValue
}.

(** [raw_data.length > 500 ? raw_data.substring(0, 500) + '...' : raw_data];
    a number has no [length], so the comparison is false for it. *)
Definition rawDataPreview (raw : JSValue) : JSValue :=
  match raw with
  | JSString s =>
      if decide (500 < String.length s)%nat
      then JSString (substring 0 500 s +:+ "...")
      else raw
  | _ => raw
  end.

(** [if (v) parts.push(label + v)] *)
Definition pushIf (v : JSValue) (label : string) (shown : JSValue) : list string :=
  if truthy v then [label +:+ toString shown] else [].

(** The array [parts] of [formatPacketForAI(packet, isTarget)]. *)
Definition formatParts (packet : Packet) (isTarget : bool) : list string :=
  [ "Packet ID: " +:+ toString (id packet);
    "Protocol: " +:+ toString (protocol packet);
    "Source: " +:+ toString (orNA (src_ip packet)) +:+ ":" +:+ toString (orNA (src_port packet));
    "Destination: " +:+ toString (orNA (dst_ip packet)) +:+ ":"
       +:+ toString (orNA (dst_port packet));
    "Size: " +:+ toString (size_ packet) +:+ " bytes" ]
  ++ pushIf (flags packet) "Flags: " (flags packet)
  ++ (if isTarget
      then pushIf (payload_preview packet) "Payload Preview: " (payload_preview packet)
           ++ pushIf (raw_data packet) "Payload: " (rawDataPreview (raw_data packet))
           ++ pushIf (summary packet) "Summary: " (summary packet)
      else pushIf (summary packet) "Summary: " (summary packet)).

(** The line feed, code unit 0x0A. *)
Definition newline : string := String (ascii_of_nat 10) EmptyString.

(** [formatPacketForAI(packet, isTarget)]: [parts.join('\n')]. *)
Definition formatPacketForAI (packet : Packet) (isTarget : bool) : string :=
  String.concat newline (formatParts packet isTarget).

(** ** Checking the answer of the model *)

(** The regular expressions of [validateEvaluationResponse] are
    sequences of three kinds of atoms: one character of a class, any
    number of characters of a class, and (written as one and any
    number) at least one.  [matchAt r s] says that [r] matches at the
    start of [s], [test r s] that it matches somewhere in [s]. *)
Inductive Atom :=
  | One (p : ascii → bool)
  | Many (p : ascii → bool).

Fixpoint matchAt (r : list Atom) : string → bool :=
  match r with
  | [] => fun _ => true
  | One p :: r' =>
      fun s =>
        match s with
        | String c s' => p c && matchAt r' s'
        | EmptyString => false
        end
  | Many p :: r' =>
      fix many (s : string) : bool :=
        matchAt r' s
        || match s with
           | String c s' => p c && many s'
           | EmptyString => false
           end
  end.

(** [regex.test(s)], and whether [s.match(regex)] is not [null]. *)
Fixpoint test (r : list Atom) (s : string) : bool :=
  matchAt r s
  || match s with
     | String _ s' => test r s'
     | EmptyString => false
     end.

(** The upper case of an ASCII letter; any other code unit below 256
    has no ASCII letter as upper case and is left alone. *)
Definition upper (c : ascii) : ascii :=
  let n := N_of_ascii c in
  if N.leb 97 n && N.leb n 122 then ascii_of_N (n - 32) else c.

(** A pattern character under the flag [i]. *)
Definition sameLetter (c x : ascii) : bool := Ascii.eqb (upper x) (upper c).

(** A literal text under the flag [i]. *)
Fixpoint literal (text : string) : list Atom :=
  match text with
  | EmptyString => []
  | String c text' => One (sameLetter c) :: literal text'
  end.

(** [\d] *)
Definition isDigit (c : ascii) : bool :=
  let n := N_of_ascii c in N.leb 48 n && N.leb n 57.

(** [[\s_]] *)
Definition isSpaceOrUnderscore (c : ascii) : bool :=
  JS.is_space c || Ascii.eqb c "_".

(** [[:\s*]] *)
Definition isColonSpaceOrStar (c : ascii) : bool :=
  Ascii.eqb c ":" || JS.is_space c || Ascii.eqb c JS.asterisk.

Definition isColon (c : ascii) : bool := Ascii.eqb c ":".

Definition stars : string := String JS.asterisk (String JS.asterisk EmptyString).

(** [/PACKET[\s_]*IDENTIFICATION[:\s*]/i] *)
Definition rePacketIdentification : list Atom :=
  literal "PACKET" ++ [Many isSpaceOrUnderscore] ++ literal "IDENTIFICATION"
    ++ [One isColonSpaceOrStar].

(** [/\*\*PACKET[\s_]*IDENTIFICATION\*\*/i] *)
Definition rePacketIdentificationBold : list Atom :=
  literal (stars +:+ "PACKET") ++ [Many isSpaceOrUnderscore]
    ++ literal ("IDENTIFICATION" +:+ stars).

(** [/PACKET[\s_]*ID[:\s*]/i] *)
Definition rePacketId : list Atom :=
  literal "PACKET" ++ [Many isSpaceOrUnderscore] ++ literal "ID" ++ [One isColonSpaceOrStar].

(** [/NAME\s*:\s*(\d+)/i] *)
Definition reFieldColon (name : string) : list Atom :=
  literal name ++ [Many JS.is_space; One isColon; Many JS.is_space; One isDigit; Many isDigit].

(** [/NAME\s+(\d+)/i] *)
Definition reFieldSpace (name : string) : list Atom :=
  literal name ++ [One JS.is_space; Many JS.is_space; One isDigit; Many isDigit].

(** The four expressions tried for a field with a number. *)
Definition hasNumberField (name response : string) : bool :=
  test (reFieldColon (stars +:+ name +:+ stars)) response
  || test (reFieldColon name) response
  || test (reFieldSpace (stars +:+ name +:+ stars)) response
  || test (reFieldSpace name) response.

Inductive Validation :=
  | Valid
  | Invalid (error : string) (fullResponse : string).

(** [validateEvaluationResponse(response)] for a string [response]. *)
Definition validateEvaluationResponse (response : string) : Validation :=
  if bool_decide (response = "")
  then Invalid "Empty or invalid response" response
  else
    let hasPacketId :=
      test rePacketIdentification response
      || test rePacketIdentificationBold response
      || test rePacketId response in
    let hasSeverity := hasNumberField "SEVERITY" response in
    let hasConfidence := hasNumberField "CONFIDENCE" response in
    if negb hasPacketId
    then Invalid
           "Missing PACKET_IDENTIFICATION field (or PACKET IDENTIFICATION with space)"
           response
    else if negb hasSeverity
    then Invalid
           "Missing SEVERITY field with numeric value (must be format: SEVERITY: 45, not SEVERITY: description). Found variations but no number."
           response
    else if negb hasConfidence
    then Invalid
           "Missing CONFIDENCE field with numeric value (must be format: CONFIDENCE: 75, not CONFIDENCE: description). Found variations but no number."
           response
    else Valid.

#[global] Instance Validation_eq_dec : EqDecision Validation.
Proof. solve_decision. Defined.

#[global] Instance Stats_eq_dec : EqDecision Stats.
Proof. solve_decision. Defined.

(** ** Vocabulary of the properties *)

(** A session is live at [now] when [getSession] hands it out. *)
Definition live (mgr : ChatSessionManager) (now : Z) (packetId : string) (s : Session) : Prop :=
  sessions mgr !! packetId = Some s ∧ now - lastAccess s ≤ ttl mgr.

(** The anchor of the session stored under a key: its message at index 0. *)
Definition currentAnchor (mgr : ChatSessionManager) (packetId : string) : option Message :=
  sessions mgr !! packetId ≫= fun s => head (messages s).

(** What a read does to the session it finds. *)
Definition readSession (mgr : ChatSessionManager) (s : Session) : Session :=
  if decide (maxContextTokens mgr < getTotalTokens mgr (messages s))
  then with_messages s (trimToContextWindow mgr (messages s))
  else s.

(** What an append does to the session it finds. *)
Definition pushMessage (s : Session) (now : Z) (role content : string) : Session :=
  with_lastAccess (with_messages s (messages s ++ [mkMessage role content])) now.

(** Every stored session has a message at index 0. *)
Definition anchored (mgr : ChatSessionManager) : Prop :=
  ∀ k s, sessions mgr !! k = Some s → messages s ≠ [].

(** Every stored session has a message of role system at index 0. *)
Definition systemAnchored (mgr : ChatSessionManager) : Prop :=
  ∀ k s, sessions mgr !! k = Some s → role <$> head (messages s) = Some "system".

(** The managers the server can be in: a new one, and whatever the
    methods and the follow-up handler make of a manager already there. *)
Inductive reachable : ChatSessionManager → Prop :=
  | reach_new t :
      reachable (newChatSessionManager t)
  | reach_getSession mgr now k :
      reachable mgr → reachable (getSession mgr now k).1
  | reach_createSession mgr now k prompt :
      reachable mgr → reachable (createSession mgr now k prompt).1
  | reach_addMessage mgr now k role content systemPrompt :
      reachable mgr → reachable (addMessage mgr now k role content systemPrompt).1
  | reach_getMessages mgr now k :
      reachable mgr → reachable (getMessages mgr now k).1
  | reach_cleanupOldSessions mgr now :
      reachable mgr → reachable (cleanupOldSessions mgr now)
  | reach_clearSession mgr k :
      reachable mgr → reachable (clearSession mgr k).1
  | reach_chatAskBegin mgr now k question :
      reachable mgr → reachable (chatAskBegin mgr now k question).1.

(** ** Scenarios *)

(** The manager the server starts with. *)
Definition freshManager : ChatSessionManager := newChatSessionManager CHAT_SESSION_TTL.

(** A session created for packet 7 at time 0. *)
Definition created : ChatSessionManager :=
  (createSession freshManager 0 "7" SYSTEM_PROMPT).1.

(** Packet 7 evaluated once: context sent at 0, answer stored at 1000. *)
Definition evaluatedOnce : ChatSessionManager :=
  evaluateEnd (evaluateBegin freshManager 0 "7" "Packet ID: 7").1 1000 "7" "SEVERITY: 10".

(** The same packet evaluated a second time before any question. *)
Definition evaluatedTwice : ChatSessionManager :=
  evaluateEnd (evaluateBegin evaluatedOnce 2000 "7" "Packet ID: 7").1 3000 "7" "SEVERITY: 12".

(** The first follow-up question after the two evaluations. *)
Definition askedAfterTwo : ChatSessionManager :=
  (chatAskBegin evaluatedTwice 4000 "7" "why?").1.

(** A user message of 22000 characters. *)
Definition longMessage : string := JS.repeat "a" (Z.to_nat 22000).

(** One long user message appended to a new evaluation session: the
    history costs more than 5500 and less than 6000 tokens. *)
Definition nearFull : ChatSessionManager :=
  (addMessage created 1 "7" "user" longMessage None).1.

(** A second long message: the history costs more than 6000 tokens. *)
Definition overFull : ChatSessionManager :=
  (addMessage nearFull 2 "7" "assistant" longMessage None).1.

(** The first follow-up question after one evaluation. *)
Definition askedOnce : ChatSessionManager :=
  (chatAskBegin evaluatedOnce 2000 "7" "why?").1.

(** The history of [askedOnce]. *)
Definition askedOnceHistory : list Message :=
  [chatAnchor; mkMessage "user" "Packet ID: 7"; mkMessage "assistant" "SEVERITY: 10";
   mkMessage "user" "why?"].

(** An evaluation whose answer comes back one millisecond after the
    session of the packet has expired. *)
Definition lateAnswer : ChatSessionManager :=
  evaluateEnd (evaluateBegin freshManager 0 "7" "Packet ID: 7").1 3600001 "7" "SEVERITY: 10".

(** The history of [evaluatedOnce]. *)
Definition evaluatedOnceHistory : list Message :=
  [evaluationAnchor; mkMessage "user" "Packet ID: 7"; mkMessage "assistant" "SEVERITY: 10"].

(** The history of [nearFull]. *)
Definition nearFullHistory : list Message :=
  [evaluationAnchor; mkMessage "user" longMessage].

(** The history of [overFull]. *)
Definition overFullHistory : list Message :=
  [evaluationAnchor; mkMessage "user" longMessage; mkMessage "assistant" longMessage].

(** A long packet context followed by a short answer and a question. *)
Definition mixedHistory : list Message :=
  [evaluationAnchor; mkMessage "user" longMessage;
   mkMessage "assistant" "SEVERITY: 10"; mkMessage "user" "why?"].

(** A history whose system prompt alone is 22000 characters long. *)
Definition hugeAnchorHistory : list Message :=
  [mkMessage "system" longMessage; mkMessage "user" "why?"].

(** A TCP packet with a payload of 600 characters and no source port. *)
Definition synPacket : Packet :=
  {| id := JSNumber 7; protocol := JSString "TCP";
     src_ip := JSString "10.0.0.1"; src_port := JSNumber 0;
     dst_ip := JSString "10.0.0.2"; dst_port := JSNumber 443;
     size_ := JSNumber 654; flags := JSString "S";
     payload_preview := JSUndefined;
     raw_data := JSString (JS.repeat "a" 600);
     summary := JSString "TCP 10.0.0.1 > 10.0.0.2:443" |}.

(** * Properties *)

(** ** The budget estimator *)

Section Estimator.
Context (mgr : ChatSessionManager).

Lemma getTotalTokens_app (l1 l2 : list Message) :
  getTotalTokens mgr (l1 ++ l2) = getTotalTokens mgr l1 + getTotalTokens mgr l2.
Proof. induction l1 as [|m l1 IH]; simpl; [reflexivity | rewrite IH; lia]. Qed.

Lemma getTotalTokens_reverse (l : list Message) :
  getTotalTokens mgr (reverse l) = getTotalTokens mgr l.
Proof.
  induction l as [|m l IH]; [reflexivity|].
  rewrite reverse_cons, getTotalTokens_app, IH. simpl. lia.
Qed.
End Estimator.

(** The example of the documentation: 19 characters are 5 tokens. *)
Example estimateTokens_greeting :
  estimateTokens freshManager "Hello, how are you?" = 5.
Proof. reflexivity. Qed.

(** A message is charged for its keys, quotes and escapes as well: the
    line feed below is written as a backslash and an n. *)
Example JSON_stringify_length :
  String.length (JSON_stringify (mkMessage "user" "hi")) = 30%nat
  ∧ String.length (JSON_stringify (mkMessage "user" "a
b")) = 32%nat
  ∧ msgTokens freshManager (mkMessage "user" "hi") = 8.
Proof. repeat split; reflexivity. Qed.

(** ** The loop of the trimmer *)

Section FitRecent.
Context (mgr : ChatSessionManager) (availableTokens : Z).

(** What the loop keeps is an initial segment of the newest-first walk. *)
Lemma fitRecent_prefix (newestFirst : list Message) (totalTokens : Z) :
  fitRecent mgr availableTokens totalTokens newestFirst `prefix_of` newestFirst.
Proof.
  revert totalTokens; induction newestFirst as [|m l IH]; intros t; simpl.
  - reflexivity.
  - case_decide; [apply prefix_cons, IH | apply prefix_nil].
Qed.

(** The running total never passes [availableTokens]. *)
Lemma fitRecent_budget (newestFirst : list Message) (totalTokens : Z) :
  totalTokens ≤ availableTokens →
  totalTokens + getTotalTokens mgr (fitRecent mgr availableTokens totalTokens newestFirst)
    ≤ availableTokens.
Proof.
  revert totalTokens; induction newestFirst as [|m l IH]; intros t Ht; simpl.
  - lia.
  - case_decide as Hfit; simpl; [|lia].
    specialize (IH _ Hfit). lia.
Qed.

(** Running the loop again over what it kept keeps all of it. *)
Lemma fitRecent_idem (newestFirst : list Message) (totalTokens : Z) :
  fitRecent mgr availableTokens totalTokens
    (fitRecent mgr availableTokens totalTokens newestFirst)
  = fitRecent mgr availableTokens totalTokens newestFirst.
Proof.
  revert totalTokens; induction newestFirst as [|m l IH]; intros t; simpl.
  - reflexivity.
  - case_decide as Hfit; simpl; [|reflexivity].
    rewrite decide_True by assumption. f_equal. apply IH.
Qed.

(** When everything is kept, everything fitted. *)
Lemma fitRecent_all (newestFirst : list Message) (totalTokens : Z) :
  fitRecent mgr availableTokens totalTokens newestFirst = newestFirst →
  totalTokens ≤ availableTokens →
  totalTokens + getTotalTokens mgr newestFirst ≤ availableTokens.
Proof.
  intros Hall Ht. rewrite <- Hall. by apply fitRecent_budget.
Qed.

Lemma fitRecent_length (newestFirst : list Message) (totalTokens : Z) :
  (length (fitRecent mgr availableTokens totalTokens newestFirst) ≤ length newestFirst)%nat.
Proof. apply prefix_length, fitRecent_prefix. Qed.
End FitRecent.

(** ** [trimToContextWindow] *)

Section Trim.
Context (mgr : ChatSessionManager).

(** The two shapes of a trimmed, non-empty history. *)
Lemma trim_cons (systemPrompt : Message) (otherMessages : list Message) :
  trimToContextWindow mgr (systemPrompt :: otherMessages) =
    if decide (maxContextTokens mgr - 500 < msgTokens mgr systemPrompt)
    then [systemPrompt]
    else systemPrompt ::
           reverse (fitRecent mgr (maxContextTokens mgr - msgTokens mgr systemPrompt - 500) 0
                      (reverse otherMessages)).
Proof. reflexivity. Qed.

Lemma trim_head (msgs : list Message) :
  head (trimToContextWindow mgr msgs) = head msgs.
Proof.
  destruct msgs as [|a rest]; [reflexivity|].
  rewrite trim_cons. by case_decide.
Qed.

Lemma trim_nonempty (msgs : list Message) :
  msgs ≠ [] → trimToContextWindow mgr msgs ≠ [].
Proof.
  destruct msgs as [|a rest]; [done|]. intros _.
  rewrite trim_cons. by case_decide.
Qed.

Lemma trim_tail_suffix (msgs : list Message) :
  tail (trimToContextWindow mgr msgs) `suffix_of` tail msgs.
Proof.
  destruct msgs as [|a rest]; [reflexivity|].
  rewrite trim_cons. case_decide; simpl.
  - apply suffix_nil.
  - rewrite <- (reverse_involutive rest) at 2.
    apply suffix_prefix_reverse. rewrite !reverse_involutive.
    apply fitRecent_prefix.
Qed.

Lemma trim_idem (msgs : list Message) :
  trimToContextWindow mgr (trimToContextWindow mgr msgs) = trimToContextWindow mgr msgs.
Proof.
  destruct msgs as [|a rest]; [reflexivity|].
  rewrite trim_cons. case_decide as Hbig.
  - rewrite trim_cons. by rewrite decide_True by assumption.
  - rewrite trim_cons. rewrite decide_False by assumption.
    by rewrite reverse_involutive, fitRecent_idem.
Qed.

Lemma trim_length (msgs : list Message) :
  (length (trimToContextWindow mgr msgs) ≤ length msgs)%nat.
Proof.
  destruct msgs as [|a rest]; [reflexivity|].
  rewrite trim_cons. case_decide; simpl; [lia|].
  rewrite length_reverse.
  pose proof (fitRecent_length mgr (maxContextTokens mgr - msgTokens mgr a - 500)
                (reverse rest) 0) as H'.
  rewrite length_reverse in H'. lia.
Qed.

(** Within budget for the anchor, the trimmed history fits
    [maxContextTokens - 500]. *)
Lemma trim_total (systemPrompt : Message) (otherMessages : list Message) :
  msgTokens mgr systemPrompt ≤ maxContextTokens mgr - 500 →
  getTotalTokens mgr (trimToContextWindow mgr (systemPrompt :: otherMessages))
    ≤ maxContextTokens mgr - 500.
Proof.
  intros Hsys. rewrite trim_cons, decide_False by lia. simpl.
  rewrite getTotalTokens_reverse.
  pose proof (fitRecent_budget mgr (maxContextTokens mgr - msgTokens mgr systemPrompt - 500)
                (reverse otherMessages) 0). lia.
Qed.

(** A history over [maxContextTokens] with more than its anchor loses
    at least one message. *)
Lemma trim_drops (msgs : list Message) :
  maxContextTokens mgr < getTotalTokens mgr msgs →
  (1 < length msgs)%nat →
  (length (trimToContextWindow mgr msgs) < length msgs)%nat.
Proof.
  destruct msgs as [|a rest]; [simpl; lia|]. intros Hover Hlen.
  rewrite trim_cons. simpl in Hover, Hlen.
  case_decide as Hbig; simpl; [lia|].
  rewrite length_reverse.
  set (av := maxContextTokens mgr - msgTokens mgr a - 500).
  destruct (decide (length (fitRecent mgr av 0 (reverse rest)) = length (reverse rest)))
    as [Heq|Hne].
  - exfalso.
    assert (fitRecent mgr av 0 (reverse rest) = reverse rest) as Hall.
    { apply prefix_length_eq; [apply fitRecent_prefix | lia]. }
    apply fitRecent_all in Hall; [|unfold av; lia].
    rewrite getTotalTokens_reverse in Hall. unfold av in Hall. lia.
  - pose proof (fitRecent_length mgr av (reverse rest) 0) as Hle.
    rewrite length_reverse in Hle, Hne. lia.
Qed.
End Trim.

(** ** The store: lookups after each method *)

Lemma with_sessions_id (mgr : ChatSessionManager) :
  with_sessions mgr (sessions mgr) = mgr.
Proof. by destruct mgr. Qed.

Lemma with_sessions_twice (mgr : ChatSessionManager) (m1 m2 : gmap string Session) :
  with_sessions (with_sessions mgr m1) m2 = with_sessions mgr m2.
Proof. reflexivity. Qed.

Lemma getSession_live mgr now k s :
  live mgr now k s → getSession mgr now k = (mgr, Some s).
Proof.
  intros [Hk Hfresh]. unfold getSession. rewrite Hk.
  by rewrite decide_False by lia.
Qed.

Lemma getSession_Some mgr now k s :
  (getSession mgr now k).2 = Some s → live mgr now k s.
Proof.
  unfold getSession, live.
  destruct (sessions mgr !! k) as [s'|] eqn:Hk; [|done].
  case_decide; simpl; [done|]. intros [= ->]. split; [done | lia].
Qed.

Lemma getSession_None mgr now k :
  (getSession mgr now k).2 = None →
  sessions (getSession mgr now k).1 !! k = None ∧
  (getSession mgr now k).1 = with_sessions mgr (delete k (sessions mgr)).
Proof.
  unfold getSession.
  destruct (sessions mgr !! k) as [s'|] eqn:Hk.
  - case_decide; simpl; [|done]. intros _. split; [apply lookup_delete_eq | done].
  - simpl. intros _. split; [done|].
    by rewrite delete_id, with_sessions_id.
Qed.

Lemma getSession_other mgr now k k' :
  k ≠ k' → sessions (getSession mgr now k).1 !! k' = sessions mgr !! k'.
Proof.
  intros Hne. unfold getSession.
  destruct (sessions mgr !! k) as [s'|]; [|done].
  case_decide; simpl; [by apply lookup_delete_ne | done].
Qed.

(** One pass of the sweep, entry by entry: what is left under a key. *)
Lemma sweep_fold_lookup (t now : Z) (m acc : gmap string Session) (k : string) :
  map_fold
    (fun packetId session acc =>
       if decide (t < now - lastAccess session) then delete packetId acc else acc)
    acc m !! k
  = match m !! k with
    | Some s => if decide (t < now - lastAccess s) then None else acc !! k
    | None => acc !! k
    end.
Proof.
  apply (map_fold_weak_ind (fun r m' =>
    r !! k = match m' !! k with
             | Some s => if decide (t < now - lastAccess s) then None else acc !! k
             | None => acc !! k
             end)).
  - by rewrite lookup_empty.
  - intros i x m' r Hi IH.
    destruct (decide (i = k)) as [->|Hne].
    + rewrite lookup_insert_eq. rewrite Hi in IH.
      case_decide; [apply lookup_delete_eq | done].
    + rewrite lookup_insert_ne by done.
      case_decide; [by rewrite lookup_delete_ne | done].
Qed.

Lemma cleanup_lookup mgr now k :
  sessions (cleanupOldSessions mgr now) !! k =
    match sessions mgr !! k with
    | Some s => if decide (ttl mgr < now - lastAccess s) then None else Some s
    | None => None
    end.
Proof.
  unfold cleanupOldSessions; simpl. rewrite sweep_fold_lookup.
  destruct (sessions mgr !! k); [|done]. by case_decide.
Qed.

Lemma cleanup_config mgr now :
  ttl (cleanupOldSessions mgr now) = ttl mgr ∧
  maxContextTokens (cleanupOldSessions mgr now) = maxContextTokens mgr ∧
  charsPerToken (cleanupOldSessions mgr now) = charsPerToken mgr.
Proof. done. Qed.

(** Two managers with the same configuration and the same entries are
    the same manager. *)
Lemma manager_eq (m1 m2 : ChatSessionManager) :
  ttl m1 = ttl m2 → maxContextTokens m1 = maxContextTokens m2 →
  charsPerToken m1 = charsPerToken m2 →
  (∀ k, sessions m1 !! k = sessions m2 !! k) → m1 = m2.
Proof.
  destruct m1, m2; simpl; intros -> -> -> Hm. f_equal. by apply map_eq.
Qed.

(** The estimator only reads [charsPerToken]. *)
Lemma msgTokens_with_sessions mgr m msg :
  msgTokens (with_sessions mgr m) msg = msgTokens mgr msg.
Proof. reflexivity. Qed.

Lemma getTotalTokens_with_sessions mgr m msgs :
  getTotalTokens (with_sessions mgr m) msgs = getTotalTokens mgr msgs.
Proof. induction msgs as [|x l IH]; simpl; [done | by rewrite IH]. Qed.

Lemma fitRecent_with_sessions mgr m av t l :
  fitRecent (with_sessions mgr m) av t l = fitRecent mgr av t l.
Proof.
  revert t; induction l as [|x l IH]; intros t; simpl; [done|].
  rewrite msgTokens_with_sessions. case_decide; [by rewrite IH | done].
Qed.

Lemma trim_with_sessions mgr m msgs :
  trimToContextWindow (with_sessions mgr m) msgs = trimToContextWindow mgr msgs.
Proof.
  destruct msgs as [|a rest]; [done|].
  rewrite !trim_cons. simpl. rewrite msgTokens_with_sessions.
  case_decide; [done|]. by rewrite fitRecent_with_sessions.
Qed.

(** The result of a read of a live session, and the manager it leaves. *)
Lemma getMessages_live mgr now k s :
  live mgr now k s →
  getMessages mgr now k =
    if decide (maxContextTokens mgr < getTotalTokens mgr (messages s))
    then (with_sessions mgr
            (<[k := with_messages s (trimToContextWindow mgr (messages s))]> (sessions mgr)),
          Some (trimToContextWindow mgr (messages s)))
    else (mgr, Some (messages s)).
Proof.
  intros Hlive. unfold getMessages. by rewrite (getSession_live _ _ _ _ Hlive).
Qed.

Lemma getMessages_Some mgr now k msgs :
  (getMessages mgr now k).2 = Some msgs → ∃ s, live mgr now k s.
Proof.
  unfold getMessages.
  destruct (getSession mgr now k) as [mgr1 [s|]] eqn:Hg; simpl; [|done].
  intros _. exists s. apply getSession_Some. by rewrite Hg.
Qed.

Lemma getMessages_absent mgr now k :
  (getSession mgr now k).2 = None →
  getMessages mgr now k = (with_sessions mgr (delete k (sessions mgr)), None).
Proof.
  intros Hnone. unfold getMessages.
  destruct (getSession_None _ _ _ Hnone) as [_ Hst].
  destruct (getSession mgr now k) as [mgr1 found]; simpl in *. by subst.
Qed.

(** An append to a live session: one more message, the clock written
    down, everything else as it was. *)
Lemma addMessage_live mgr now k role content systemPrompt s :
  live mgr now k s →
  addMessage mgr now k role content systemPrompt =
    let s' := with_lastAccess (with_messages s (messages s ++ [mkMessage role content])) now in
    (with_sessions mgr (<[k := s']> (sessions mgr)), s').
Proof.
  intros Hlive. unfold addMessage. by rewrite (getSession_live _ _ _ _ Hlive).
Qed.

(** An append where no live session is found creates one first. *)
Lemma addMessage_absent mgr now k role content systemPrompt :
  (getSession mgr now k).2 = None →
  addMessage mgr now k role content systemPrompt =
    let prompt :=
      defaultPrompt (with_sessions mgr (delete k (sessions mgr))) k role systemPrompt in
    let s' :=
      {| messages := [mkMessage "system" (JS.trim prompt); mkMessage role content];
         createdAt := now; lastAccess := now; packetId := k |} in
    (with_sessions mgr (<[k := s']> (sessions mgr)), s').
Proof.
  intros Hnone. unfold addMessage.
  destruct (getSession_None _ _ _ Hnone) as [_ Hst].
  destruct (getSession mgr now k) as [mgr1 found]; simpl in *. subst.
  simpl. f_equal. f_equal.
  rewrite insert_insert_eq. apply insert_delete_eq.
Qed.

(** ** Reads, appends and the switch, seen from the session *)

Lemma live_insert mgr (m : gmap string Session) now k s :
  now - lastAccess s ≤ ttl mgr → live (with_sessions mgr (<[k := s]> m)) now k s.
Proof. intros Hfresh. split; [apply lookup_insert_eq | done]. Qed.

Lemma currentAnchor_insert mgr (m : gmap string Session) k s :
  currentAnchor (with_sessions mgr (<[k := s]> m)) k = head (messages s).
Proof. unfold currentAnchor; simpl. by rewrite lookup_insert_eq. Qed.

Lemma currentAnchor_live mgr now k s :
  live mgr now k s → currentAnchor mgr k = head (messages s).
Proof. intros [Hk _]. unfold currentAnchor. by rewrite Hk. Qed.

Lemma readSession_lastAccess mgr s : lastAccess (readSession mgr s) = lastAccess s.
Proof. unfold readSession. by case_decide. Qed.

Lemma readSession_head mgr s : head (messages (readSession mgr s)) = head (messages s).
Proof. unfold readSession. case_decide; [apply trim_head | done]. Qed.

Lemma readSession_nonempty mgr s : messages s ≠ [] → messages (readSession mgr s) ≠ [].
Proof. unfold readSession. case_decide; [apply trim_nonempty | done]. Qed.

Lemma readSession_with_sessions mgr m s :
  readSession (with_sessions mgr m) s = readSession mgr s.
Proof.
  unfold readSession; simpl.
  by rewrite getTotalTokens_with_sessions, trim_with_sessions.
Qed.

(** Both branches of a read, written as one update of the entry. *)
Lemma getMessages_read mgr now k s :
  live mgr now k s →
  getMessages mgr now k =
    (with_sessions mgr (<[k := readSession mgr s]> (sessions mgr)),
     Some (messages (readSession mgr s))).
Proof.
  intros Hlive. rewrite (getMessages_live _ _ _ _ Hlive). unfold readSession.
  case_decide; [done|]. destruct Hlive as [Hk _].
  by rewrite insert_id, with_sessions_id.
Qed.

Lemma addMessage_push mgr now k role content systemPrompt s :
  live mgr now k s →
  addMessage mgr now k role content systemPrompt =
    (with_sessions mgr (<[k := pushMessage s now role content]> (sessions mgr)),
     pushMessage s now role content).
Proof. apply addMessage_live. Qed.

Lemma pushMessage_head s now role content :
  messages s ≠ [] → head (messages (pushMessage s now role content)) = head (messages s).
Proof. simpl. by destruct (messages s). Qed.

Lemma switchToChat_found mgr k s :
  sessions mgr !! k = Some s →
  switchToChat mgr k =
    with_sessions mgr
      (<[k := with_messages s (<[0%nat := chatAnchor]> (messages s))]> (sessions mgr)).
Proof. intros Hk. unfold switchToChat. by rewrite Hk. Qed.

Lemma switched_head (msgs : list Message) :
  msgs ≠ [] → head (<[0%nat := chatAnchor]> msgs) = Some chatAnchor.
Proof. by destruct msgs. Qed.

(** ** Every stored session keeps a message at index 0 *)

Lemma anchored_insert mgr k s :
  anchored mgr → messages s ≠ [] → anchored (with_sessions mgr (<[k := s]> (sessions mgr))).
Proof.
  intros Hinv Hs k' s'. simpl.
  destruct (decide (k = k')) as [->|Hne].
  - rewrite lookup_insert_eq. by intros [= <-].
  - rewrite lookup_insert_ne by done. apply Hinv.
Qed.

Lemma anchored_delete mgr k :
  anchored mgr → anchored (with_sessions mgr (delete k (sessions mgr))).
Proof.
  intros Hinv k' s'. simpl.
  destruct (decide (k = k')) as [->|Hne].
  - by rewrite lookup_delete_eq.
  - rewrite lookup_delete_ne by done. apply Hinv.
Qed.

Lemma anchored_getSession mgr now k :
  anchored mgr → anchored (getSession mgr now k).1.
Proof.
  intros Hinv. unfold getSession.
  destruct (sessions mgr !! k) as [s|]; [|done].
  case_decide; simpl; [by apply anchored_delete | done].
Qed.

Lemma anchored_createSession mgr now k prompt :
  anchored mgr → anchored (createSession mgr now k prompt).1.
Proof. intros Hinv. by apply anchored_insert. Qed.

Lemma anchored_getMessages mgr now k :
  anchored mgr → anchored (getMessages mgr now k).1.
Proof.
  intros Hinv.
  destruct (getSession mgr now k).2 as [s|] eqn:Hg.
  - apply getSession_Some in Hg.
    rewrite (getMessages_read _ _ _ _ Hg). simpl.
    apply anchored_insert; [done|].
    apply readSession_nonempty, (Hinv k), Hg.
  - rewrite (getMessages_absent _ _ _ Hg). by apply anchored_delete.
Qed.

Lemma anchored_addMessage mgr now k role content systemPrompt :
  anchored mgr → anchored (addMessage mgr now k role content systemPrompt).1.
Proof.
  intros Hinv.
  destruct (getSession mgr now k).2 as [s|] eqn:Hg.
  - apply getSession_Some in Hg.
    rewrite (addMessage_push _ _ _ _ _ _ _ Hg). simpl.
    apply anchored_insert; [done|]. simpl. by destruct (messages s).
  - rewrite (addMessage_absent _ _ _ _ _ _ Hg). simpl.
    by apply anchored_insert.
Qed.

Lemma anchored_cleanupOldSessions mgr now :
  anchored mgr → anchored (cleanupOldSessions mgr now).
Proof.
  intros Hinv k s. rewrite cleanup_lookup.
  destruct (sessions mgr !! k) as [s'|] eqn:Hk; [|done].
  case_decide; [done|]. intros [= <-]. by apply (Hinv k).
Qed.

Lemma anchored_switchToChat mgr k :
  anchored mgr → anchored (switchToChat mgr k).
Proof.
  intros Hinv. unfold switchToChat.
  destruct (sessions mgr !! k) as [s|] eqn:Hk; [|done].
  apply anchored_insert; [done|]. simpl.
  specialize (Hinv _ _ Hk). by destruct (messages s).
Qed.

Lemma anchored_chatAskBegin mgr now k question :
  anchored mgr → anchored (chatAskBegin mgr now k question).1.
Proof.
  intros Hinv. unfold chatAskBegin.
  case_bool_decide; [done|]. case_bool_decide; [done|].
  pose proof (anchored_getMessages mgr now k Hinv) as H1.
  destruct (getMessages mgr now k) as [mgr1 [msgs|]]; simpl in *; [|done].
  apply anchored_getMessages, anchored_addMessage.
  case_decide; [by apply anchored_switchToChat | done].
Qed.

Lemma reachable_anchored mgr : reachable mgr → anchored mgr.
Proof.
  induction 1.
  - intros k s. simpl. by rewrite lookup_empty.
  - by apply anchored_getSession.
  - by apply anchored_createSession.
  - by apply anchored_addMessage.
  - by apply anchored_getMessages.
  - by apply anchored_cleanupOldSessions.
  - by apply anchored_delete.
  - by apply anchored_chatAskBegin.
Qed.

(** The handlers of an evaluation are made of the methods. *)
Lemma reachable_evaluateBegin mgr now k userMessage :
  reachable mgr → reachable (evaluateBegin mgr now k userMessage).1.
Proof.
  intros Hr. unfold evaluateBegin.
  pose proof (reach_getMessages mgr now k Hr) as H1.
  destruct (getMessages mgr now k) as [mgr1 [msgs|]]; simpl in *.
  - by apply reach_getMessages, reach_addMessage.
  - by apply reach_getMessages, reach_addMessage, reach_getMessages, reach_createSession.
Qed.

Lemma reachable_evaluateEnd mgr now k response :
  reachable mgr → reachable (evaluateEnd mgr now k response).
Proof. intros Hr. by apply reach_addMessage. Qed.

(** Closed facts about the scenarios are settled by running the
    embedding: the proposition is decided by evaluation, so that the
    histories with their long strings are never spelled out. *)
Ltac by_evaluation :=
  lazymatch goal with
  | |- ?P => apply (bool_decide_eq_true_1 P); vm_compute; reflexivity
  end.

(** ** The claims about the trimmer *)

(** C1 (anchor invariance).  In every manager the server can reach, a
    read that returns a history returns one whose first element is the
    anchor of the session, the read (with the trimming it may do)
    leaves that anchor at index 0 of the stored history, an append to
    the live session leaves it there too, and trimming any history
    keeps its first element first. *)
Theorem anchor_invariance (mgr : ChatSessionManager) (k : string) :
  reachable mgr →
  (∀ now msgs, (getMessages mgr now k).2 = Some msgs →
     is_Some (head msgs)
     ∧ head msgs = currentAnchor mgr k
     ∧ currentAnchor (getMessages mgr now k).1 k = currentAnchor mgr k)
  ∧ (∀ now s role content systemPrompt, live mgr now k s →
     currentAnchor (addMessage mgr now k role content systemPrompt).1 k = currentAnchor mgr k)
  ∧ (∀ history, head (trimToContextWindow mgr history) = head history).
Proof.
  intros Hinv%reachable_anchored. split; [|split].
  - intros now msgs Hread.
    destruct (getMessages_Some _ _ _ _ Hread) as [s Hlive].
    rewrite (getMessages_read _ _ _ _ Hlive) in Hread |- *. simpl in *.
    injection Hread as <-.
    rewrite currentAnchor_insert, (currentAnchor_live _ _ _ _ Hlive), readSession_head.
    split; [|done].
    pose proof (Hinv k s (proj1 Hlive)). by destruct (messages s).
  - intros now s role content systemPrompt Hlive.
    rewrite (addMessage_push _ _ _ _ _ _ _ Hlive). simpl fst.
    rewrite currentAnchor_insert, (currentAnchor_live _ _ _ _ Hlive).
    apply pushMessage_head, (Hinv k), Hlive.
  - apply trim_head.
Qed.

Lemma reachable_overFull : reachable overFull.
Proof.
  unfold overFull, nearFull, created, freshManager.
  apply reach_addMessage, reach_addMessage, reach_createSession, reach_new.
Defined.

(** The over-long history of packet 7 is read back as its anchor alone,
    and that anchor is the one the session had. *)
Lemma anchor_invariance_witness :
  reachable overFull
  ∧ (getMessages overFull 5 "7").2 = Some [evaluationAnchor]
  ∧ Some evaluationAnchor = currentAnchor overFull "7".
Proof.
  assert ((getMessages overFull 5 "7").2 = Some [evaluationAnchor]) as Hread
    by by_evaluation.
  split; [exact reachable_overFull | split; [exact Hread|]].
  destruct (anchor_invariance overFull "7" reachable_overFull) as (Hr & _ & _).
  exact (proj1 (proj2 (Hr 5 [evaluationAnchor] Hread))).
Defined.

(** C2 (budget respect).  With budget [maxContextTokens] and the reserve
    of 500 tokens: when the anchor costs at most budget minus reserve,
    the trimmed history costs at most budget minus reserve; when the
    anchor costs more, the trimmed history is the anchor alone. *)
Theorem budget_respect (mgr : ChatSessionManager)
    (systemPrompt : Message) (otherMessages : list Message) :
  (msgTokens mgr systemPrompt ≤ maxContextTokens mgr - 500 →
     getTotalTokens mgr (trimToContextWindow mgr (systemPrompt :: otherMessages))
       ≤ maxContextTokens mgr - 500)
  ∧ (maxContextTokens mgr - 500 < msgTokens mgr systemPrompt →
     trimToContextWindow mgr (systemPrompt :: otherMessages) = [systemPrompt]).
Proof.
  split.
  - apply trim_total.
  - intros Hbig. rewrite trim_cons. by rewrite decide_True by assumption.
Qed.

(** Both cases at the configuration of the server: a history of 11328
    tokens is cut to at most 5500, and a system prompt of 5508 tokens is
    kept alone. *)
Lemma budget_respect_witness :
  (msgTokens freshManager evaluationAnchor ≤ maxContextTokens freshManager - 500
   ∧ getTotalTokens freshManager (trimToContextWindow freshManager overFullHistory)
       ≤ maxContextTokens freshManager - 500)
  ∧ (maxContextTokens freshManager - 500 < msgTokens freshManager (mkMessage "system" longMessage)
     ∧ trimToContextWindow freshManager hugeAnchorHistory = [mkMessage "system" longMessage]).
Proof.
  assert (msgTokens freshManager evaluationAnchor ≤ maxContextTokens freshManager - 500) as H1
    by by_evaluation.
  assert (maxContextTokens freshManager - 500
            < msgTokens freshManager (mkMessage "system" longMessage)) as H2
    by by_evaluation.
  split; split; [exact H1 | | exact H2 | ].
  - exact (proj1 (budget_respect freshManager evaluationAnchor
                    [mkMessage "user" longMessage; mkMessage "assistant" longMessage]) H1).
  - exact (proj2 (budget_respect freshManager (mkMessage "system" longMessage)
                    [mkMessage "user" "why?"]) H2).
Defined.

(** C3 (suffix property).  The messages kept after the anchor are the
    last messages of the input after its anchor, in the same order:
    the input's tail is some dropped messages followed by exactly the
    kept ones, so every dropped message is older than every kept one. *)
Theorem suffix_property (mgr : ChatSessionManager) (msgs : list Message) :
  ∃ dropped : list Message,
    tail msgs = (dropped ++ tail (trimToContextWindow mgr msgs))%list.
Proof. apply trim_tail_suffix. Qed.

(** The long context is dropped, the two newer messages stay in order. *)
Example suffix_property_mixed :
  trimToContextWindow freshManager mixedHistory =
    [evaluationAnchor; mkMessage "assistant" "SEVERITY: 10"; mkMessage "user" "why?"].
Proof. by_evaluation. Qed.

(** ** The claims about appends and reads *)

(** The session an append creates when it finds none and is given no
    system prompt. *)
Lemma addMessage_absent_default mgr now k role content :
  (getSession mgr now k).2 = None →
  addMessage mgr now k role content None =
    let s' :=
      {| messages :=
           [mkMessage "system"
              (JS.trim (if bool_decide (role = "user") then SYSTEM_PROMPT
                        else CHAT_SYSTEM_PROMPT));
            mkMessage role content];
         createdAt := now; lastAccess := now; packetId := k |} in
    (with_sessions mgr (<[k := s']> (sessions mgr)), s').
Proof.
  intros Hnone. rewrite (addMessage_absent _ _ _ _ _ _ Hnone).
  unfold defaultPrompt. simpl sessions.
  rewrite (bool_decide_eq_true_2 (delete k (sessions mgr) !! k = None))
    by apply lookup_delete_eq.
  by rewrite andb_true_r.
Qed.

(** C4 (append where no session is live), as the code has it.  An
    append with no system prompt on a key without a live session does
    not fail: it creates the session, anchored by the evaluation prompt
    for a user message and by the chat prompt for any other role, adds
    the message, stores the session under the key and returns it. *)
Theorem addMessage_creates_session (mgr : ChatSessionManager) (now : Z)
    (k role content : string) :
  (getSession mgr now k).2 = None →
  (addMessage mgr now k role content None).2 =
    {| messages :=
         [mkMessage "system"
            (JS.trim (if bool_decide (role = "user") then SYSTEM_PROMPT
                      else CHAT_SYSTEM_PROMPT));
          mkMessage role content];
       createdAt := now; lastAccess := now; packetId := k |}
  ∧ sessions (addMessage mgr now k role content None).1 !! k
      = Some (addMessage mgr now k role content None).2.
Proof.
  intros Hnone. rewrite (addMessage_absent_default _ _ _ _ _ Hnone). simpl.
  split; [done | apply lookup_insert_eq].
Qed.

(** An assistant message for a packet never seen creates a session that
    is anchored by the chat prompt. *)
Lemma addMessage_creates_session_witness :
  (getSession freshManager 0 "9").2 = None
  ∧ (addMessage freshManager 0 "9" "assistant" "SEVERITY: 10" None).2 =
      {| messages := [chatAnchor; mkMessage "assistant" "SEVERITY: 10"];
         createdAt := 0; lastAccess := 0; packetId := "9" |}.
Proof.
  assert ((getSession freshManager 0 "9").2 = None) as Hnone by reflexivity.
  split; [exact Hnone|].
  exact (proj1 (addMessage_creates_session freshManager 0 "9" "assistant" "SEVERITY: 10" Hnone)).
Defined.

(** C4 as stated fails: on the new manager, where packet 7 has no
    session, the append of a user message succeeds and leaves a session
    under the key. *)
Lemma addMessage_absent_succeeds :
  (getSession freshManager 0 "7").2 = None
  ∧ sessions (addMessage freshManager 0 "7" "user" "hello" None).1 !! "7" =
      Some {| messages := [evaluationAnchor; mkMessage "user" "hello"];
              createdAt := 0; lastAccess := 0; packetId := "7" |}.
Proof. split; by_evaluation. Qed.

(** C5 (what a read returns), as the code has it.  A read of a live
    session returns the trimmed history only when the stored history
    costs more than [maxContextTokens]; otherwise it returns the stored
    history as it is.  When the anchor costs at most [maxContextTokens]
    minus 500, what is returned costs at most [maxContextTokens]. *)
Theorem read_trims_over_budget (mgr : ChatSessionManager) (now : Z) (k : string)
    (s : Session) :
  live mgr now k s →
  (getMessages mgr now k).2 =
    Some (if decide (maxContextTokens mgr < getTotalTokens mgr (messages s))
          then trimToContextWindow mgr (messages s)
          else messages s)
  ∧ (∀ anchor rest msgs,
       messages s = anchor :: rest →
       msgTokens mgr anchor ≤ maxContextTokens mgr - 500 →
       (getMessages mgr now k).2 = Some msgs →
       getTotalTokens mgr msgs ≤ maxContextTokens mgr).
Proof.
  intros Hlive. rewrite (getMessages_live _ _ _ _ Hlive). split.
  - by case_decide.
  - intros anchor rest msgs Hs Hanchor.
    case_decide as Hover; simpl; intros [= <-]; [|lia].
    rewrite Hs. pose proof (trim_total mgr anchor rest Hanchor). lia.
Qed.

Lemma live_nearFull :
  live nearFull 5 "7"
    {| messages := nearFullHistory; createdAt := 0; lastAccess := 1; packetId := "7" |}.
Proof. unfold live. split; by_evaluation. Defined.

(** The history of 5819 tokens is read back whole. *)
Lemma read_trims_over_budget_witness :
  live nearFull 5 "7"
    {| messages := nearFullHistory; createdAt := 0; lastAccess := 1; packetId := "7" |}
  ∧ (getMessages nearFull 5 "7").2 =
      Some (if decide (maxContextTokens nearFull < getTotalTokens nearFull nearFullHistory)
            then trimToContextWindow nearFull nearFullHistory
            else nearFullHistory).
Proof.
  split; [exact live_nearFull|].
  exact (proj1 (read_trims_over_budget nearFull 5 "7" _ live_nearFull)).
Defined.

(** C5 as stated fails: right after the append of the long message the
    history costs 5819 tokens, more than 6000 minus 500; the read
    returns both messages, while trimming would return the anchor
    alone. *)
Lemma read_returns_untrimmed :
  messages <$> sessions nearFull !! "7" = Some nearFullHistory
  ∧ (getMessages nearFull 5 "7").2 = Some nearFullHistory
  ∧ trimToContextWindow nearFull nearFullHistory = [evaluationAnchor]
  ∧ getTotalTokens nearFull nearFullHistory = 5819
  ∧ maxContextTokens nearFull - 500 = 5500.
Proof. repeat split; by_evaluation. Qed.

(** C6 (freshness of [lastAccess]), as the code has it.  Every append
    writes the current time into [lastAccess] of the session it returns
    and stores; a read of a live session leaves [lastAccess] as it
    was. *)
Theorem lastAccess_updates (mgr : ChatSessionManager) (now : Z) (k : string) :
  (∀ role content systemPrompt,
     lastAccess (addMessage mgr now k role content systemPrompt).2 = now
     ∧ sessions (addMessage mgr now k role content systemPrompt).1 !! k
         = Some (addMessage mgr now k role content systemPrompt).2)
  ∧ (∀ s, live mgr now k s →
       lastAccess <$> sessions (getMessages mgr now k).1 !! k = Some (lastAccess s)).
Proof.
  split.
  - intros role content systemPrompt.
    destruct (getSession mgr now k).2 as [s|] eqn:Hg.
    + apply getSession_Some in Hg. rewrite (addMessage_push _ _ _ _ _ _ _ Hg). simpl.
      split; [done | apply lookup_insert_eq].
    + rewrite (addMessage_absent _ _ _ _ _ _ Hg). simpl.
      split; [done | apply lookup_insert_eq].
  - intros s Hlive. rewrite (getMessages_read _ _ _ _ Hlive). simpl.
    by rewrite lookup_insert_eq, <- (readSession_lastAccess mgr s).
Qed.

Lemma live_created :
  live created 5 "7"
    {| messages := [evaluationAnchor]; createdAt := 0; lastAccess := 0; packetId := "7" |}.
Proof. unfold live. split; by_evaluation. Defined.

(** An append at time 5 stamps the session with 5; a read at time 5
    leaves the stamp at 0. *)
Lemma lastAccess_updates_witness :
  lastAccess (addMessage created 5 "7" "user" "hello" None).2 = 5
  ∧ live created 5 "7"
      {| messages := [evaluationAnchor]; createdAt := 0; lastAccess := 0; packetId := "7" |}
  ∧ lastAccess <$> sessions (getMessages created 5 "7").1 !! "7" = Some 0.
Proof.
  destruct (lastAccess_updates created 5 "7") as [Happend Hread].
  split; [exact (proj1 (Happend "user" "hello" None))|].
  split; [exact live_created|].
  exact (Hread _ live_created).
Defined.

(** C6 as stated fails for reads: the session created at time 0 is read
    at time 5 and still carries [lastAccess] 0. *)
Lemma read_leaves_lastAccess :
  (getMessages created 5 "7").2 = Some [evaluationAnchor]
  ∧ lastAccess <$> sessions (getMessages created 5 "7").1 !! "7" = Some 0.
Proof. split; by_evaluation. Qed.

(** ** The claims about expiry *)

(** C8 (TTL expiration).  A session idle for more than [ttl] at the time
    of the sweep is gone after it; the swept manager is the one that
    sweeping the store without that session gives, so nothing later
    can tell the session was ever there: a read of the key finds
    nothing and an append starts a new session with its own anchor. *)
Theorem ttl_expiration (mgr : ChatSessionManager) (now : Z) (k : string) (s : Session) :
  sessions mgr !! k = Some s →
  ttl mgr < now - lastAccess s →
  sessions (cleanupOldSessions mgr now) !! k = None
  ∧ cleanupOldSessions mgr now = cleanupOldSessions (clearSession mgr k).1 now
  ∧ (∀ now', getMessages (cleanupOldSessions mgr now) now' k
             = (cleanupOldSessions mgr now, None))
  ∧ (∀ now' role content,
       (addMessage (cleanupOldSessions mgr now) now' k role content None).2 =
         {| messages :=
              [mkMessage "system"
                 (JS.trim (if bool_decide (role = "user") then SYSTEM_PROMPT
                           else CHAT_SYSTEM_PROMPT));
               mkMessage role content];
            createdAt := now'; lastAccess := now'; packetId := k |}).
Proof.
  intros Hk Hidle.
  assert (sessions (cleanupOldSessions mgr now) !! k = None) as Hgone.
  { rewrite cleanup_lookup, Hk. by rewrite decide_True by assumption. }
  assert (∀ now', (getSession (cleanupOldSessions mgr now) now' k).2 = None) as Hnone.
  { intros now'. unfold getSession. by rewrite Hgone. }
  split; [exact Hgone | split; [|split]].
  - apply manager_eq; try reflexivity.
    intros k'. rewrite !cleanup_lookup. simpl.
    destruct (decide (k = k')) as [<-|Hne].
    + rewrite lookup_delete_eq, Hk. by rewrite decide_True by assumption.
    + by rewrite lookup_delete_ne by done.
  - intros now'. rewrite (getMessages_absent _ _ _ (Hnone now')).
    by rewrite delete_id, with_sessions_id.
  - intros now' role content.
    by rewrite (addMessage_absent_default _ _ _ _ _ (Hnone now')).
Qed.

(** The scenario of the specification: last touched at 1000 ms, swept
    3600001 ms later with a TTL of one hour. *)
Lemma ttl_expiration_witness :
  ttl evaluatedOnce < 3601001 - 1000
  ∧ sessions (cleanupOldSessions evaluatedOnce 3601001) !! "7" = None
  ∧ getMessages (cleanupOldSessions evaluatedOnce 3601001) 3601001 "7"
      = (cleanupOldSessions evaluatedOnce 3601001, None).
Proof.
  assert (sessions evaluatedOnce !! "7" =
            Some {| messages := evaluatedOnceHistory;
                    createdAt := 0; lastAccess := 1000; packetId := "7" |}) as Hk
    by by_evaluation.
  assert (ttl evaluatedOnce < 3601001 - 1000) as Hidle by by_evaluation.
  destruct (ttl_expiration evaluatedOnce 3601001 "7" _ Hk Hidle) as (Hgone & _ & Hread & _).
  split; [exact Hidle | split; [exact Hgone | exact (Hread 3601001)]].
Defined.

(** C9 (the sweep is idempotent).  A second sweep at the same time
    leaves the manager of the first sweep as it is. *)
Theorem sweep_idempotent (mgr : ChatSessionManager) (now : Z) :
  cleanupOldSessions (cleanupOldSessions mgr now) now = cleanupOldSessions mgr now.
Proof.
  apply manager_eq; try reflexivity.
  intros k. rewrite (cleanup_lookup (cleanupOldSessions mgr now)).
  rewrite cleanup_lookup. simpl.
  destruct (sessions mgr !! k) as [s|]; [|done].
  destruct (decide (ttl mgr < now - lastAccess s)) as [Hold|Hfresh]; [done|].
  by rewrite decide_False by assumption.
Qed.

(** ** The claim about what a read leaves in the store *)

(** C10 (a read rewrites the stored history).  A read of a live session
    whose history costs more than [maxContextTokens] returns the
    trimmed history and stores it in place of the old one; the other
    fields of the session stay.  What is stored after the anchor is a
    final part of what was stored before, strictly shorter when there
    was more than the anchor, and the next read of the still live
    session returns the same trimmed history and changes nothing. *)
Theorem read_rewrites_history (mgr : ChatSessionManager) (now : Z) (k : string)
    (s : Session) :
  live mgr now k s →
  maxContextTokens mgr < getTotalTokens mgr (messages s) →
  (getMessages mgr now k).2 = Some (trimToContextWindow mgr (messages s))
  ∧ sessions (getMessages mgr now k).1 !! k
      = Some (with_messages s (trimToContextWindow mgr (messages s)))
  ∧ tail (trimToContextWindow mgr (messages s)) `suffix_of` tail (messages s)
  ∧ ((1 < length (messages s))%nat →
     (length (trimToContextWindow mgr (messages s)) < length (messages s))%nat)
  ∧ (∀ now', now' - lastAccess s ≤ ttl mgr →
       getMessages (getMessages mgr now k).1 now' k
         = ((getMessages mgr now k).1, Some (trimToContextWindow mgr (messages s)))).
Proof.
  intros Hlive Hover.
  rewrite (getMessages_live _ _ _ _ Hlive), decide_True by assumption. simpl.
  split; [done | split; [apply lookup_insert_eq | split; [apply trim_tail_suffix | split]]].
  - by apply trim_drops.
  - intros now' Hfresh.
    set (s' := with_messages s (trimToContextWindow mgr (messages s))).
    assert (live (with_sessions mgr (<[k := s']> (sessions mgr))) now' k s') as Hlive'
      by by apply live_insert.
    rewrite (getMessages_read _ _ _ _ Hlive'). simpl sessions.
    rewrite readSession_with_sessions.
    assert (readSession mgr s' = s') as ->.
    { unfold readSession. case_decide; [|done].
      unfold s', with_messages; simpl. by rewrite trim_idem. }
    by rewrite insert_insert_eq.
Qed.

Lemma live_overFull :
  live overFull 5 "7"
    {| messages := overFullHistory; createdAt := 0; lastAccess := 2; packetId := "7" |}.
Proof. unfold live. split; by_evaluation. Defined.

(** The history of 11328 tokens is cut to its anchor, in the store too. *)
Lemma read_rewrites_history_witness :
  live overFull 5 "7"
    {| messages := overFullHistory; createdAt := 0; lastAccess := 2; packetId := "7" |}
  ∧ maxContextTokens overFull < getTotalTokens overFull overFullHistory
  ∧ sessions (getMessages overFull 5 "7").1 !! "7"
      = Some {| messages := trimToContextWindow overFull overFullHistory;
                createdAt := 0; lastAccess := 2; packetId := "7" |}.
Proof.
  assert (maxContextTokens overFull < getTotalTokens overFull overFullHistory) as Hover
    by by_evaluation.
  split; [exact live_overFull | split; [exact Hover|]].
  exact (proj1 (proj2 (read_rewrites_history overFull 5 "7" _ live_overFull Hover))).
Defined.

(** ** The claim about the switch of the system prompt *)

(** An append followed by a read at the same time keeps the anchor. *)
Lemma append_read_anchor mgr now k role content systemPrompt s :
  live mgr now k s → messages s ≠ [] → 0 ≤ ttl mgr →
  currentAnchor (getMessages (addMessage mgr now k role content systemPrompt).1 now k).1 k
    = head (messages s).
Proof.
  intros Hlive Hne Httl.
  rewrite (addMessage_push _ _ _ _ _ _ _ Hlive). simpl fst.
  erewrite getMessages_read; [|apply live_insert; simpl; lia].
  simpl fst. rewrite currentAnchor_insert, readSession_head.
  by apply pushMessage_head.
Qed.

(** The anchor a follow-up leaves behind. *)
Lemma chatAskBegin_anchor mgr now k question s :
  live mgr now k s → messages s ≠ [] → 0 ≤ ttl mgr →
  k ≠ "" → JS.trim question ≠ "" →
  currentAnchor (chatAskBegin mgr now k question).1 k =
    if decide (length (messages (readSession mgr s)) = 3%nat)
    then Some chatAnchor else head (messages s).
Proof.
  intros Hlive Hne Httl Hk Hq. unfold chatAskBegin.
  rewrite (bool_decide_eq_false_2 (k = "")) by done.
  rewrite (bool_decide_eq_false_2 (JS.trim question = "")) by done.
  rewrite (getMessages_read _ _ _ _ Hlive).
  set (s1 := readSession mgr s).
  assert (now - lastAccess s1 ≤ ttl mgr) as Hfresh1.
  { unfold s1. rewrite readSession_lastAccess. apply Hlive. }
  assert (messages s1 ≠ []) as Hne1 by by apply readSession_nonempty.
  pose proof (live_insert mgr (sessions mgr) now k s1 Hfresh1) as Hlive1.
  case_decide as Hthree.
  - rewrite (switchToChat_found _ _ _ (proj1 Hlive1)).
    rewrite append_read_anchor
      with (s := with_messages s1 (<[0%nat := chatAnchor]> (messages s1))).
    + by apply switched_head.
    + by apply live_insert.
    + simpl. by destruct (messages s1).
    + done.
  - rewrite append_read_anchor with (s := s1); try done.
    apply readSession_head.
Qed.

(** The anchor an evaluation leaves behind when the session is live ... *)
Lemma evaluateBegin_anchor mgr now k userMessage s :
  live mgr now k s → messages s ≠ [] → 0 ≤ ttl mgr →
  currentAnchor (evaluateBegin mgr now k userMessage).1 k = head (messages s).
Proof.
  intros Hlive Hne Httl. unfold evaluateBegin.
  rewrite (getMessages_read _ _ _ _ Hlive).
  rewrite append_read_anchor with (s := readSession mgr s).
  - apply readSession_head.
  - apply live_insert. rewrite readSession_lastAccess. apply Hlive.
  - by apply readSession_nonempty.
  - done.
Qed.

(** ... and when it has to create the session. *)
Lemma evaluateBegin_creates mgr now k userMessage :
  (getSession mgr now k).2 = None → 0 ≤ ttl mgr →
  currentAnchor (evaluateBegin mgr now k userMessage).1 k = Some evaluationAnchor.
Proof.
  intros Hnone Httl. unfold evaluateBegin.
  rewrite (getMessages_absent _ _ _ Hnone). unfold createSession. cbn [fst snd].
  set (s0 := {| messages := [mkMessage "system" (JS.trim SYSTEM_PROMPT)];
                createdAt := now; lastAccess := now; packetId := k |}).
  set (mgrd := with_sessions mgr (delete k (sessions mgr))).
  assert (live (with_sessions mgrd (<[k := s0]> (sessions mgrd))) now k s0) as Hlive0
    by (apply live_insert; simpl; lia).
  rewrite (getMessages_read _ _ _ _ Hlive0). simpl fst.
  rewrite append_read_anchor with (s := readSession mgr s0).
  - by rewrite readSession_head.
  - rewrite readSession_with_sessions. apply live_insert.
    rewrite readSession_lastAccess. simpl. lia.
  - by apply readSession_nonempty.
  - done.
Qed.

Lemma switchToChat_idem mgr k :
  switchToChat (switchToChat mgr k) k = switchToChat mgr k.
Proof.
  destruct (sessions mgr !! k) as [s|] eqn:Hk.
  - rewrite (switchToChat_found mgr k s Hk).
    erewrite switchToChat_found; [|apply lookup_insert_eq].
    simpl. rewrite insert_insert_eq.
    replace (<[0%nat := chatAnchor]> (<[0%nat := chatAnchor]> (messages s)))
      with (<[0%nat := chatAnchor]> (messages s)) by by destruct (messages s).
    reflexivity.
  - assert (switchToChat mgr k = mgr) as Hid by (unfold switchToChat; by rewrite Hk).
    by rewrite !Hid.
Qed.

(** C7 (the switch of the anchor), the part the code has by design.
    The code keeps no mode; the mode of a session is read off its
    anchor.  For a live session of a reachable manager with a
    non-negative TTL, each operation read at one clock value: replacing
    the anchor by the chat prompt twice is the same as replacing it
    once; appends, reads, the sweep and the evaluation handlers keep the
    anchor; the follow-up handler either keeps the anchor or leaves the
    chat prompt as anchor, so the only change an anchor undergoes is
    the replacement by the chat prompt; and an anchor that is the chat
    prompt stays the chat prompt.  A session that an evaluation or an
    append of a user message creates starts with the evaluation prompt;
    a session that an append of any other role creates starts with the
    chat prompt.  Which follow-up makes the replacement is left out of
    this statement. *)
Theorem anchor_switch (mgr : ChatSessionManager) (now : Z) (k : string) (s : Session) :
  reachable mgr → 0 ≤ ttl mgr → live mgr now k s →
  switchToChat (switchToChat mgr k) k = switchToChat mgr k
  ∧ currentAnchor (switchToChat mgr k) k = Some chatAnchor
  ∧ (∀ role content systemPrompt,
       currentAnchor (addMessage mgr now k role content systemPrompt).1 k
         = currentAnchor mgr k)
  ∧ currentAnchor (getMessages mgr now k).1 k = currentAnchor mgr k
  ∧ currentAnchor (cleanupOldSessions mgr now) k = currentAnchor mgr k
  ∧ (∀ userMessage,
       currentAnchor (evaluateBegin mgr now k userMessage).1 k = currentAnchor mgr k)
  ∧ (∀ response,
       currentAnchor (evaluateEnd mgr now k response) k = currentAnchor mgr k
       ∧ currentAnchor (chatAskEnd mgr now k response) k = currentAnchor mgr k)
  ∧ (∀ question,
       currentAnchor (chatAskBegin mgr now k question).1 k = currentAnchor mgr k
       ∨ currentAnchor (chatAskBegin mgr now k question).1 k = Some chatAnchor)
  ∧ (currentAnchor mgr k = Some chatAnchor →
     ∀ question, currentAnchor (chatAskBegin mgr now k question).1 k = Some chatAnchor)
  ∧ (∀ k' userMessage,
       (getSession mgr now k').2 = None →
       currentAnchor (evaluateBegin mgr now k' userMessage).1 k' = Some evaluationAnchor)
  ∧ (∀ k' role content,
       (getSession mgr now k').2 = None →
       currentAnchor (addMessage mgr now k' role content None).1 k'
         = Some (if bool_decide (role = "user") then evaluationAnchor else chatAnchor)).
Proof.
  intros Hinv%reachable_anchored Httl Hlive.
  pose proof (Hinv k s (proj1 Hlive)) as Hne.
  pose proof (currentAnchor_live _ _ _ _ Hlive) as Hanchor.
  assert (∀ role content systemPrompt,
            currentAnchor (addMessage mgr now k role content systemPrompt).1 k
              = currentAnchor mgr k) as Happend.
  { intros role content systemPrompt.
    rewrite (addMessage_push _ _ _ _ _ _ _ Hlive). simpl fst.
    rewrite currentAnchor_insert, Hanchor. by apply pushMessage_head. }
  assert (∀ question,
            currentAnchor (chatAskBegin mgr now k question).1 k = currentAnchor mgr k
            ∨ currentAnchor (chatAskBegin mgr now k question).1 k = Some chatAnchor)
    as Hask.
  { intros question.
    destruct (decide (k = "")) as [Hk|Hk].
    { left. unfold chatAskBegin. by rewrite (bool_decide_eq_true_2 (k = "")). }
    destruct (decide (JS.trim question = "")) as [Hq|Hq].
    { left. unfold chatAskBegin.
      rewrite (bool_decide_eq_false_2 (k = "")) by done.
      by rewrite (bool_decide_eq_true_2 (JS.trim question = "")). }
    rewrite (chatAskBegin_anchor mgr now k question s Hlive Hne Httl Hk Hq), Hanchor.
    case_decide; [by right | by left]. }
  split; [apply switchToChat_idem|].
  split.
  { rewrite (switchToChat_found _ _ _ (proj1 Hlive)), currentAnchor_insert.
    by apply switched_head. }
  split; [exact Happend|].
  split.
  { rewrite (getMessages_read _ _ _ _ Hlive). simpl fst.
    by rewrite currentAnchor_insert, readSession_head. }
  split.
  { unfold currentAnchor. rewrite cleanup_lookup.
    destruct Hlive as [-> Hfresh]. by rewrite decide_False by lia. }
  split.
  { intros userMessage. rewrite Hanchor. by apply evaluateBegin_anchor. }
  split; [intros response; split; apply Happend|].
  split; [exact Hask|].
  split.
  { intros Hchat question. destruct (Hask question) as [Hkeep|Hset]; congruence. }
  split.
  { intros k' userMessage Hnone. by apply evaluateBegin_creates. }
  intros k' role content Hnone.
  rewrite (addMessage_absent_default _ _ _ _ _ Hnone). cbn [fst].
  rewrite currentAnchor_insert. cbn [messages head].
  by case_bool_decide.
Qed.

Lemma reachable_evaluatedOnce : reachable evaluatedOnce.
Proof.
  unfold evaluatedOnce, freshManager.
  apply reachable_evaluateEnd, reachable_evaluateBegin, reach_new.
Defined.

Lemma live_evaluatedOnce :
  live evaluatedOnce 2000 "7"
    {| messages := evaluatedOnceHistory; createdAt := 0; lastAccess := 1000; packetId := "7" |}.
Proof. unfold live. split; by_evaluation. Defined.

Lemma reachable_askedOnce : reachable askedOnce.
Proof. unfold askedOnce. apply reach_chatAskBegin, reachable_evaluatedOnce. Defined.

Lemma live_askedOnce :
  live askedOnce 3000 "7"
    {| messages := askedOnceHistory; createdAt := 0; lastAccess := 2000; packetId := "7" |}.
Proof. unfold live. split; by_evaluation. Defined.

(** The session that has the chat prompt as anchor keeps it through the
    next question. *)
Lemma anchor_switch_witness :
  reachable askedOnce
  ∧ 0 ≤ ttl askedOnce
  ∧ live askedOnce 3000 "7"
      {| messages := askedOnceHistory; createdAt := 0; lastAccess := 2000;
         packetId := "7" |}
  ∧ currentAnchor askedOnce "7" = Some chatAnchor
  ∧ currentAnchor (chatAskBegin askedOnce 3000 "7" "and now?").1 "7" = Some chatAnchor.
Proof.
  assert (0 ≤ ttl askedOnce) as Httl by by_evaluation.
  assert (currentAnchor askedOnce "7" = Some chatAnchor) as Hchat by by_evaluation.
  destruct (anchor_switch askedOnce 3000 "7" _ reachable_askedOnce Httl live_askedOnce)
    as (_ & _ & _ & _ & _ & _ & _ & _ & Hstays & _).
  split; [exact reachable_askedOnce|].
  split; [exact Httl|]. split; [exact live_askedOnce|]. split; [exact Hchat|].
  exact (Hstays Hchat "and now?").
Defined.

(** C7 as stated fails where it says that the mode starts as
    evaluation.  The session of packet 7 expires while the model is
    answering; the append of the answer finds no session and creates
    one that is anchored by the chat prompt from its first moment, as
    the branch of [addMessage] for a role other than user has it.  The
    same on the new manager, for a packet never seen. *)
Lemma session_starts_conversational :
  (getSession (evaluateBegin freshManager 0 "7" "Packet ID: 7").1 3600001 "7").2 = None
  ∧ sessions lateAnswer !! "7" =
      Some {| messages := [chatAnchor; mkMessage "assistant" "SEVERITY: 10"];
              createdAt := 3600001; lastAccess := 3600001; packetId := "7" |}
  ∧ currentAnchor lateAnswer "7" = Some chatAnchor
  ∧ chatAnchor ≠ evaluationAnchor
  ∧ (getSession freshManager 0 "9").2 = None
  ∧ currentAnchor (addMessage freshManager 0 "9" "assistant" "SEVERITY: 10" None).1 "9"
      = Some chatAnchor.
Proof. repeat split; by_evaluation. Qed.

(** The slip of the follow-up handler, which the statement of C7 above
    leaves out.  The handler is meant to replace the anchor at the
    first follow-up and tells the first follow-up by a history of
    exactly three messages.  Packet 7 is evaluated twice and then asked
    about: the handler reads five messages, appends the question and
    leaves the evaluation prompt as anchor, so the first follow-up is
    answered under the evaluation prompt. *)
Lemma switch_missed_after_second_evaluation :
  currentAnchor evaluatedTwice "7" = Some evaluationAnchor
  ∧ length <$> (getMessages evaluatedTwice 4000 "7").2 = Some 5%nat
  ∧ messages <$> sessions askedAfterTwo !! "7" =
      Some [evaluationAnchor;
            mkMessage "user" "Packet ID: 7"; mkMessage "assistant" "SEVERITY: 10";
            mkMessage "user" "Packet ID: 7"; mkMessage "assistant" "SEVERITY: 12";
            mkMessage "user" "why?"]
  ∧ currentAnchor askedAfterTwo "7" = Some evaluationAnchor
  ∧ evaluationAnchor ≠ chatAnchor.
Proof. repeat split; by_evaluation. Qed.

(** * Further properties of the manager *)

(** ** Sessions of other packets *)

Lemma createSession_other mgr now k k' prompt :
  k ≠ k' → sessions (createSession mgr now k prompt).1 !! k' = sessions mgr !! k'.
Proof. intros Hne. simpl. by rewrite lookup_insert_ne. Qed.

Lemma addMessage_other mgr now k k' role content systemPrompt :
  k ≠ k' →
  sessions (addMessage mgr now k role content systemPrompt).1 !! k' = sessions mgr !! k'.
Proof.
  intros Hne.
  destruct (getSession mgr now k).2 as [s|] eqn:Hg.
  - apply getSession_Some in Hg. rewrite (addMessage_push _ _ _ _ _ _ _ Hg). simpl.
    by rewrite lookup_insert_ne.
  - rewrite (addMessage_absent _ _ _ _ _ _ Hg). simpl. by rewrite lookup_insert_ne.
Qed.

Lemma getMessages_other mgr now k k' :
  k ≠ k' → sessions (getMessages mgr now k).1 !! k' = sessions mgr !! k'.
Proof.
  intros Hne.
  destruct (getSession mgr now k).2 as [s|] eqn:Hg.
  - apply getSession_Some in Hg. rewrite (getMessages_read _ _ _ _ Hg). simpl.
    by rewrite lookup_insert_ne.
  - rewrite (getMessages_absent _ _ _ Hg). simpl. by rewrite lookup_delete_ne.
Qed.

Lemma switchToChat_other mgr k k' :
  k ≠ k' → sessions (switchToChat mgr k) !! k' = sessions mgr !! k'.
Proof.
  intros Hne. unfold switchToChat.
  destruct (sessions mgr !! k) as [s|]; [|done]. simpl. by rewrite lookup_insert_ne.
Qed.

Lemma chatAskBegin_other mgr now k k' question :
  k ≠ k' → sessions (chatAskBegin mgr now k question).1 !! k' = sessions mgr !! k'.
Proof.
  intros Hne. unfold chatAskBegin.
  case_bool_decide; [done|]. case_bool_decide; [done|].
  pose proof (getMessages_other mgr now k k' Hne) as H1.
  destruct (getMessages mgr now k) as [mgr1 [msgs|]]; simpl in *; [|done].
  rewrite getMessages_other, addMessage_other by done.
  case_decide; [by rewrite switchToChat_other | done].
Qed.

Lemma evaluateBegin_other mgr now k k' userMessage :
  k ≠ k' → sessions (evaluateBegin mgr now k userMessage).1 !! k' = sessions mgr !! k'.
Proof.
  intros Hne. unfold evaluateBegin.
  pose proof (getMessages_other mgr now k k' Hne) as H1.
  destruct (getMessages mgr now k) as [mgr1 [msgs|]]; simpl in *.
  - by rewrite getMessages_other, addMessage_other.
  - rewrite getMessages_other, addMessage_other, getMessages_other by done.
    simpl. by rewrite lookup_insert_ne.
Qed.

(** X1 (isolation).  Whatever a method or a handler does for one packet,
    the session stored for any other packet is the same before and
    after. *)
Theorem other_packets_untouched (mgr : ChatSessionManager) (now : Z) (k k' : string) :
  k ≠ k' →
  sessions (getSession mgr now k).1 !! k' = sessions mgr !! k'
  ∧ (∀ prompt, sessions (createSession mgr now k prompt).1 !! k' = sessions mgr !! k')
  ∧ (∀ role content systemPrompt,
       sessions (addMessage mgr now k role content systemPrompt).1 !! k' = sessions mgr !! k')
  ∧ sessions (getMessages mgr now k).1 !! k' = sessions mgr !! k'
  ∧ sessions (clearSession mgr k).1 !! k' = sessions mgr !! k'
  ∧ (∀ userMessage,
       sessions (evaluateBegin mgr now k userMessage).1 !! k' = sessions mgr !! k')
  ∧ (∀ response,
       sessions (evaluateEnd mgr now k response) !! k' = sessions mgr !! k'
       ∧ sessions (chatAskEnd mgr now k response) !! k' = sessions mgr !! k')
  ∧ (∀ question,
       sessions (chatAskBegin mgr now k question).1 !! k' = sessions mgr !! k')
  ∧ sessions (chatHistory mgr now k).1 !! k' = sessions mgr !! k'.
Proof.
  intros Hne. repeat split.
  - by apply getSession_other.
  - intros prompt. by apply createSession_other.
  - intros role content systemPrompt. by apply addMessage_other.
  - by apply getMessages_other.
  - simpl. by rewrite lookup_delete_ne.
  - intros userMessage. by apply evaluateBegin_other.
  - by apply addMessage_other.
  - by apply addMessage_other.
  - intros question. by apply chatAskBegin_other.
  - unfold chatHistory.
    pose proof (getMessages_other mgr now k k' Hne) as H1.
    by destruct (getMessages mgr now k).
Qed.

(** A follow-up for packet 9, which has no session, leaves the session
    of packet 7 as it was. *)
Lemma other_packets_untouched_witness :
  "9" ≠ "7"
  ∧ sessions (addMessage evaluatedOnce 2000 "9" "user" "hello" None).1 !! "7"
      = sessions evaluatedOnce !! "7".
Proof.
  assert ("9" ≠ "7") as Hne by by_evaluation.
  split; [exact Hne|].
  destruct (other_packets_untouched evaluatedOnce 2000 "9" "7" Hne) as (_ & _ & Happend & _).
  exact (Happend "user" "hello" None).
Defined.

(** ** The configuration *)

Lemma getSession_config mgr now k :
  ttl (getSession mgr now k).1 = ttl mgr
  ∧ maxContextTokens (getSession mgr now k).1 = maxContextTokens mgr
  ∧ charsPerToken (getSession mgr now k).1 = charsPerToken mgr.
Proof.
  unfold getSession. destruct (sessions mgr !! k) as [s|]; [|done]. by case_decide.
Qed.

Lemma addMessage_config mgr now k role content systemPrompt :
  ttl (addMessage mgr now k role content systemPrompt).1 = ttl mgr
  ∧ maxContextTokens (addMessage mgr now k role content systemPrompt).1 = maxContextTokens mgr
  ∧ charsPerToken (addMessage mgr now k role content systemPrompt).1 = charsPerToken mgr.
Proof.
  destruct (getSession mgr now k).2 as [s|] eqn:Hg.
  - apply getSession_Some in Hg. by rewrite (addMessage_push _ _ _ _ _ _ _ Hg).
  - by rewrite (addMessage_absent _ _ _ _ _ _ Hg).
Qed.

Lemma getMessages_config mgr now k :
  ttl (getMessages mgr now k).1 = ttl mgr
  ∧ maxContextTokens (getMessages mgr now k).1 = maxContextTokens mgr
  ∧ charsPerToken (getMessages mgr now k).1 = charsPerToken mgr.
Proof.
  destruct (getSession mgr now k).2 as [s|] eqn:Hg.
  - apply getSession_Some in Hg. by rewrite (getMessages_read _ _ _ _ Hg).
  - by rewrite (getMessages_absent _ _ _ Hg).
Qed.

Lemma switchToChat_config mgr k :
  ttl (switchToChat mgr k) = ttl mgr
  ∧ maxContextTokens (switchToChat mgr k) = maxContextTokens mgr
  ∧ charsPerToken (switchToChat mgr k) = charsPerToken mgr.
Proof. unfold switchToChat. by destruct (sessions mgr !! k). Qed.

Lemma chatAskBegin_config mgr now k question :
  ttl (chatAskBegin mgr now k question).1 = ttl mgr
  ∧ maxContextTokens (chatAskBegin mgr now k question).1 = maxContextTokens mgr
  ∧ charsPerToken (chatAskBegin mgr now k question).1 = charsPerToken mgr.
Proof.
  unfold chatAskBegin.
  case_bool_decide; [done|]. case_bool_decide; [done|].
  pose proof (getMessages_config mgr now k) as (H1 & H2 & H3).
  destruct (getMessages mgr now k) as [mgr1 [msgs|]]; simpl in *; [|done].
  set (mgr2 := if decide (length msgs = 3%nat) then switchToChat mgr1 k else mgr1).
  assert (ttl mgr2 = ttl mgr1 ∧ maxContextTokens mgr2 = maxContextTokens mgr1
          ∧ charsPerToken mgr2 = charsPerToken mgr1) as (G1 & G2 & G3).
  { unfold mgr2. case_decide; [apply switchToChat_config | done]. }
  pose proof (addMessage_config mgr2 now k "user" (JS.trim question) None) as (A1 & A2 & A3).
  pose proof (getMessages_config
                (addMessage mgr2 now k "user" (JS.trim question) None).1 now k)
    as (R1 & R2 & R3).
  repeat split; congruence.
Qed.

(** X2 (the configuration is fixed).  Every manager the server can
    reach has the limits its constructor wrote, 6000 tokens and 4
    characters per token, and no method or handler changes the TTL. *)
Theorem configuration_fixed (mgr : ChatSessionManager) :
  reachable mgr →
  maxContextTokens mgr = 6000
  ∧ charsPerToken mgr = 4
  ∧ (∀ now k role content systemPrompt,
       ttl (addMessage mgr now k role content systemPrompt).1 = ttl mgr)
  ∧ (∀ now k, ttl (getMessages mgr now k).1 = ttl mgr)
  ∧ (∀ now, ttl (cleanupOldSessions mgr now) = ttl mgr)
  ∧ (∀ now k question, ttl (chatAskBegin mgr now k question).1 = ttl mgr).
Proof.
  intros Hr.
  assert (maxContextTokens mgr = 6000 ∧ charsPerToken mgr = 4) as [Hmax Hcpt].
  { induction Hr as [t|mgr now k _ [IH1 IH2]|mgr now k prompt _ IH
                     |mgr now k role content sp _ [IH1 IH2]|mgr now k _ [IH1 IH2]
                     |mgr now _ IH|mgr k _ IH|mgr now k q _ [IH1 IH2]].
    - done.
    - pose proof (getSession_config mgr now k) as (_ & -> & ->). done.
    - done.
    - pose proof (addMessage_config mgr now k role content sp) as (_ & -> & ->). done.
    - pose proof (getMessages_config mgr now k) as (_ & -> & ->). done.
    - done.
    - done.
    - pose proof (chatAskBegin_config mgr now k q) as (_ & -> & ->). done. }
  split; [done | split; [done|]]. repeat split.
  - intros. apply addMessage_config.
  - intros. apply getMessages_config.
  - intros. apply chatAskBegin_config.
Qed.

(** The manager that holds the over-long history still has the limits
    of the constructor. *)
Lemma configuration_fixed_witness :
  reachable overFull ∧ maxContextTokens overFull = 6000 ∧ charsPerToken overFull = 4.
Proof.
  destruct (configuration_fixed overFull reachable_overFull) as (Hmax & Hcpt & _).
  exact (conj reachable_overFull (conj Hmax Hcpt)).
Defined.

(** ** Creation, deletion and expiry *)

(** X3 (expiry on lookup).  A session idle for exactly [ttl] is still
    handed out.  A read of a session idle for longer returns nothing
    and deletes the entry, so that every later read of the key, at
    whatever clock value, finds nothing either. *)
Theorem expired_read_deletes (mgr : ChatSessionManager) (now : Z) (k : string) (s : Session) :
  sessions mgr !! k = Some s →
  (now - lastAccess s = ttl mgr → (getSession mgr now k).2 = Some s)
  ∧ (ttl mgr < now - lastAccess s →
     getMessages mgr now k = (with_sessions mgr (delete k (sessions mgr)), None)
     ∧ ∀ now', getMessages (getMessages mgr now k).1 now' k
               = ((getMessages mgr now k).1, None)).
Proof.
  intros Hk. split.
  - intros Hedge. rewrite (getSession_live mgr now k s); [done|]. split; [done | lia].
  - intros Hidle.
    assert ((getSession mgr now k).2 = None) as Hnone.
    { unfold getSession. rewrite Hk. by rewrite decide_True by assumption. }
    rewrite (getMessages_absent _ _ _ Hnone). split; [done|]. intros now'. simpl fst.
    rewrite getMessages_absent.
    + simpl. by rewrite delete_delete_eq.
    + unfold getSession. simpl. by rewrite lookup_delete_eq.
Qed.

(** One millisecond past the hour the evaluated session is deleted by
    the read itself. *)
Lemma expired_read_deletes_witness :
  sessions evaluatedOnce !! "7" =
    Some {| messages := evaluatedOnceHistory; createdAt := 0; lastAccess := 1000;
            packetId := "7" |}
  ∧ ttl evaluatedOnce < 3601001 - 1000
  ∧ getMessages evaluatedOnce 3601001 "7"
      = (with_sessions evaluatedOnce (delete "7" (sessions evaluatedOnce)), None).
Proof.
  assert (sessions evaluatedOnce !! "7" =
            Some {| messages := evaluatedOnceHistory; createdAt := 0; lastAccess := 1000;
                    packetId := "7" |}) as Hk by by_evaluation.
  assert (ttl evaluatedOnce < 3601001 - 1000) as Hidle by by_evaluation.
  split; [exact Hk | split; [exact Hidle|]].
  exact (proj1 (proj2 (expired_read_deletes evaluatedOnce 3601001 "7" _ Hk) Hidle)).
Defined.

(** X4 (create, then read).  With a non-negative TTL, a read right after
    [createSession] returns exactly the trimmed system prompt as the
    only message and leaves the new session as it is, whatever was
    stored under the key before and however long the prompt is. *)
Theorem createSession_then_read (mgr : ChatSessionManager) (now : Z) (k prompt : string) :
  0 ≤ ttl mgr →
  getMessages (createSession mgr now k prompt).1 now k
    = ((createSession mgr now k prompt).1, Some [mkMessage "system" (JS.trim prompt)])
  ∧ sessions (createSession mgr now k prompt).1 !! k
      = Some {| messages := [mkMessage "system" (JS.trim prompt)];
                createdAt := now; lastAccess := now; packetId := k |}.
Proof.
  intros Httl. unfold createSession. cbn [fst snd].
  set (s0 := {| messages := [mkMessage "system" (JS.trim prompt)];
                createdAt := now; lastAccess := now; packetId := k |}).
  assert (live (with_sessions mgr (<[k := s0]> (sessions mgr))) now k s0) as Hlive
    by (apply live_insert; simpl; lia).
  split; [|apply Hlive].
  rewrite (getMessages_read _ _ _ _ Hlive).
  assert (readSession (with_sessions mgr (<[k := s0]> (sessions mgr))) s0 = s0) as ->.
  { unfold readSession. case_decide; [|done].
    unfold s0 at 2. unfold with_messages. simpl messages. rewrite trim_cons.
    by case_decide. }
  simpl. by rewrite insert_insert_eq.
Qed.

(** Creating a session over the evaluated one discards its history. *)
Lemma createSession_then_read_witness :
  0 ≤ ttl evaluatedOnce
  ∧ (getMessages (createSession evaluatedOnce 2000 "7" CHAT_SYSTEM_PROMPT).1 2000 "7").2
      = Some [chatAnchor].
Proof.
  assert (0 ≤ ttl evaluatedOnce) as Httl by by_evaluation.
  split; [exact Httl|].
  exact (f_equal snd
           (proj1 (createSession_then_read evaluatedOnce 2000 "7" CHAT_SYSTEM_PROMPT Httl))).
Defined.

(** X5 ([clearSession]).  The call reports [true] exactly when an entry
    was stored under the key, expired or not; afterwards the key has no
    entry, a read of it finds nothing at any time, and a second call
    reports [false] and changes nothing. *)
Theorem clearSession_deletes (mgr : ChatSessionManager) (k : string) :
  ((clearSession mgr k).2 = true ↔ is_Some (sessions mgr !! k))
  ∧ sessions (clearSession mgr k).1 !! k = None
  ∧ (∀ now, getMessages (clearSession mgr k).1 now k = ((clearSession mgr k).1, None))
  ∧ clearSession (clearSession mgr k).1 k = ((clearSession mgr k).1, false).
Proof.
  unfold clearSession. cbn [fst snd]. repeat split.
  - apply bool_decide_eq_true_1.
  - apply bool_decide_eq_true_2.
  - apply lookup_delete_eq.
  - intros now. rewrite getMessages_absent.
    + simpl. by rewrite delete_delete_eq.
    + unfold getSession. simpl. by rewrite lookup_delete_eq.
  - simpl. rewrite delete_delete_eq. f_equal.
    apply bool_decide_eq_false_2. rewrite lookup_delete_eq. by intros [? ?].
Qed.

(** X6 (what the sweep keeps).  After [cleanupOldSessions] a key holds a
    session exactly when it held that same session before and the
    session was idle for at most [ttl]: live sessions are kept
    unchanged and nothing is added. *)
Theorem sweep_keeps_live (mgr : ChatSessionManager) (now : Z) (k : string) (s : Session) :
  sessions (cleanupOldSessions mgr now) !! k = Some s
  ↔ sessions mgr !! k = Some s ∧ now - lastAccess s ≤ ttl mgr.
Proof.
  rewrite cleanup_lookup.
  destruct (sessions mgr !! k) as [s'|]; [|split; [done | by intros [? _]]].
  case_decide; split.
  - done.
  - intros [[= ->] ?]. lia.
  - intros [= ->]. split; [done | lia].
  - by intros [? _].
Qed.

(** X7 (sweeps compose).  A sweep at one time followed by a sweep at
    another leaves what a single sweep at the later of the two times
    leaves. *)
Theorem sweep_twice_is_latest (mgr : ChatSessionManager) (t1 t2 : Z) :
  cleanupOldSessions (cleanupOldSessions mgr t1) t2 = cleanupOldSessions mgr (Z.max t1 t2).
Proof.
  apply manager_eq; try reflexivity.
  intros k. rewrite (cleanup_lookup (cleanupOldSessions mgr t1)), !cleanup_lookup. simpl.
  destruct (sessions mgr !! k) as [s|]; [|done].
  repeat case_decide; try done; lia.
Qed.

(** X8 (the sweep cannot be observed at its own time).  At the time of a
    sweep, a read returns the same history and an append returns the
    same session on the swept manager as on the manager that was never
    swept: expired sessions are already treated as absent. *)
Theorem sweep_unobservable (mgr : ChatSessionManager) (now : Z) (k : string) :
  (getMessages (cleanupOldSessions mgr now) now k).2 = (getMessages mgr now k).2
  ∧ (∀ role content systemPrompt,
       (addMessage (cleanupOldSessions mgr now) now k role content systemPrompt).2
         = (addMessage mgr now k role content systemPrompt).2).
Proof.
  destruct (getSession mgr now k).2 as [s|] eqn:Hg.
  - apply getSession_Some in Hg.
    assert (live (cleanupOldSessions mgr now) now k s) as Hg'.
    { split; [|apply Hg]. rewrite cleanup_lookup. destruct Hg as [-> Hfresh].
      by rewrite decide_False by lia. }
    split.
    + rewrite (getMessages_read _ _ _ _ Hg), (getMessages_read _ _ _ _ Hg'). simpl.
      f_equal. unfold cleanupOldSessions. by rewrite readSession_with_sessions.
    + intros role content systemPrompt.
      by rewrite (addMessage_push _ _ _ _ _ _ _ Hg), (addMessage_push _ _ _ _ _ _ _ Hg').
  - assert ((getSession (cleanupOldSessions mgr now) now k).2 = None) as Hg'.
    { unfold getSession. rewrite cleanup_lookup.
      destruct (sessions mgr !! k) as [s|] eqn:Hk; [|done].
      case_decide as Hold; [done|]. simpl.
      unfold getSession in Hg. rewrite Hk in Hg.
      rewrite decide_False in Hg by assumption. done. }
    split.
    + by rewrite (getMessages_absent _ _ _ Hg), (getMessages_absent _ _ _ Hg').
    + intros role content systemPrompt.
      rewrite (addMessage_absent _ _ _ _ _ _ Hg), (addMessage_absent _ _ _ _ _ _ Hg').
      simpl. unfold defaultPrompt. simpl. by rewrite !lookup_delete_eq.
Qed.

Lemma readSession_idem mgr s :
  readSession mgr (readSession mgr s) = readSession mgr s.
Proof.
  assert (readSession mgr s =
            if decide (maxContextTokens mgr < getTotalTokens mgr (messages s))
            then with_messages s (trimToContextWindow mgr (messages s)) else s) as ->
    by reflexivity.
  case_decide as Hover.
  - unfold readSession. case_decide; [|done].
    unfold with_messages; simpl. by rewrite trim_idem.
  - unfold readSession. by rewrite decide_False by assumption.
Qed.

(** X9 (a read is repeatable).  While the session stays live, a second
    read returns the history of the first and leaves the manager as the
    first read left it. *)
Theorem read_twice (mgr : ChatSessionManager) (now now' : Z) (k : string) (s : Session) :
  live mgr now k s →
  now' - lastAccess s ≤ ttl mgr →
  getMessages (getMessages mgr now k).1 now' k = getMessages mgr now k.
Proof.
  intros Hlive Hfresh. rewrite (getMessages_read _ _ _ _ Hlive). cbn [fst].
  assert (live (with_sessions mgr (<[k := readSession mgr s]> (sessions mgr))) now' k
            (readSession mgr s)) as Hlive'.
  { apply live_insert. by rewrite readSession_lastAccess. }
  rewrite (getMessages_read _ _ _ _ Hlive'). simpl sessions.
  rewrite readSession_with_sessions, readSession_idem.
  by rewrite insert_insert_eq.
Qed.

(** The over-long history is cut by the first read; the second read
    returns the same. *)
Lemma read_twice_witness :
  live overFull 5 "7"
    {| messages := overFullHistory; createdAt := 0; lastAccess := 2; packetId := "7" |}
  ∧ 9 - 2 ≤ ttl overFull
  ∧ getMessages (getMessages overFull 5 "7").1 9 "7" = getMessages overFull 5 "7".
Proof.
  assert (9 - 2 ≤ ttl overFull) as Hfresh by by_evaluation.
  split; [exact live_overFull | split; [exact Hfresh|]].
  exact (read_twice overFull 5 9 "7" _ live_overFull Hfresh).
Defined.

(** ** The estimator, for a positive [charsPerToken] *)

Lemma string_length_app (s1 s2 : string) :
  String.length (s1 +:+ s2) = (String.length s1 + String.length s2)%nat.
Proof. induction s1 as [|c s1 IH]; simpl; [done | by rewrite IH]. Qed.

Lemma ceil_div_bounds (a b : Z) :
  0 < b → b * (JS.ceil_div a b - 1) < a ∧ a ≤ b * JS.ceil_div a b.
Proof.
  intros Hb. unfold JS.ceil_div.
  pose proof (Z.div_mod (- a) b ltac:(lia)) as Hdm.
  pose proof (Z.mod_pos_bound (- a) b Hb) as Hmod.
  set (q := Z.div (- a) b) in *. set (r := Z.modulo (- a) b) in *. lia.
Qed.

Lemma msgTokens_nonneg mgr msg : 0 < charsPerToken mgr → 0 ≤ msgTokens mgr msg.
Proof.
  intros Hcpt. unfold msgTokens, estimateTokens.
  pose proof (ceil_div_bounds (Z.of_nat (String.length (JSON_stringify msg)))
                (charsPerToken mgr) Hcpt) as [_ Hhi].
  nia.
Qed.

Lemma getTotalTokens_nonneg mgr msgs :
  0 < charsPerToken mgr → 0 ≤ getTotalTokens mgr msgs.
Proof.
  intros Hcpt. induction msgs as [|m l IH]; simpl; [lia|].
  pose proof (msgTokens_nonneg mgr m Hcpt). lia.
Qed.

(** X10 (the estimate is a ceiling).  For a positive [charsPerToken],
    [estimateTokens] is the least number of tokens whose characters
    cover the text: the text has at most [charsPerToken] characters per
    estimated token and more than that for one token less.  So the
    estimate is never negative and grows with the length of the text. *)
Theorem estimateTokens_ceiling (mgr : ChatSessionManager) (text text' : string) :
  0 < charsPerToken mgr →
  charsPerToken mgr * (estimateTokens mgr text - 1) < Z.of_nat (String.length text)
  ∧ Z.of_nat (String.length text) ≤ charsPerToken mgr * estimateTokens mgr text
  ∧ 0 ≤ estimateTokens mgr text
  ∧ ((String.length text ≤ String.length text')%nat →
     estimateTokens mgr text ≤ estimateTokens mgr text').
Proof.
  intros Hcpt. unfold estimateTokens.
  pose proof (ceil_div_bounds (Z.of_nat (String.length text)) (charsPerToken mgr) Hcpt)
    as [Hlo Hhi].
  pose proof (ceil_div_bounds (Z.of_nat (String.length text')) (charsPerToken mgr) Hcpt)
    as [Hlo' Hhi'].
  repeat split; [done | done | nia | intros Hlen; nia].
Qed.

(** With 4 characters per token, 19 characters are more than 4 tokens
    and at most 5. *)
Lemma estimateTokens_ceiling_witness :
  0 < charsPerToken freshManager
  ∧ charsPerToken freshManager * (estimateTokens freshManager "Hello, how are you?" - 1)
      < Z.of_nat (String.length "Hello, how are you?")
  ∧ Z.of_nat (String.length "Hello, how are you?")
      ≤ charsPerToken freshManager * estimateTokens freshManager "Hello, how are you?".
Proof.
  assert (0 < charsPerToken freshManager) as Hcpt by by_evaluation.
  destruct (estimateTokens_ceiling freshManager "Hello, how are you?" "" Hcpt)
    as (Hlo & Hhi & _).
  exact (conj Hcpt (conj Hlo Hhi)).
Defined.

Lemma quote_char_length (c : ascii) :
  (1 ≤ String.length (JS.quote_char c) ≤ 6)%nat.
Proof.
  destruct c as [[] [] [] [] [] [] [] []]; vm_compute; lia.
Qed.

Lemma quote_body_length (s : string) :
  (String.length s ≤ String.length (JS.quote_body s) ≤ 6 * String.length s)%nat.
Proof.
  induction s as [|c s IH]; simpl; [lia|].
  rewrite string_length_app. pose proof (quote_char_length c). lia.
Qed.

Lemma quote_length (s : string) :
  (String.length s + 2 ≤ String.length (JS.quote s) ≤ 6 * String.length s + 2)%nat.
Proof.
  unfold JS.quote. simpl. rewrite string_length_app. simpl.
  pose proof (quote_body_length s). lia.
Qed.

Lemma JSON_stringify_length_bounds (msg : Message) :
  (24 + String.length (role msg) + String.length (content msg)
     ≤ String.length (JSON_stringify msg)
     ≤ 24 + 6 * (String.length (role msg) + String.length (content msg)))%nat.
Proof.
  unfold JSON_stringify. rewrite !string_length_app.
  pose proof (quote_length (role msg)). pose proof (quote_length (content msg)).
  change (String.length "{") with 1%nat. change (String.length ":") with 1%nat.
  change (String.length ",") with 1%nat. change (String.length "}") with 1%nat.
  change (String.length (JS.quote "role")) with 6%nat.
  change (String.length (JS.quote "content")) with 9%nat.
  lia.
Qed.

(** X11 (what a message is charged for).  The serialised message has 24
    characters of braces, keys and quotes, and between one and six
    characters for every character of the role and of the content.  So
    for a positive [charsPerToken] the tokens charged cover the role,
    the content and those 24 characters, and one token less does not
    cover more than six times the text plus the 24. *)
Theorem message_cost_bounds (mgr : ChatSessionManager) (msg : Message) :
  0 < charsPerToken mgr →
  Z.of_nat (24 + String.length (role msg) + String.length (content msg))
    ≤ charsPerToken mgr * msgTokens mgr msg
  ∧ charsPerToken mgr * (msgTokens mgr msg - 1)
    < Z.of_nat (24 + 6 * (String.length (role msg) + String.length (content msg))).
Proof.
  intros Hcpt. unfold msgTokens, estimateTokens.
  pose proof (ceil_div_bounds (Z.of_nat (String.length (JSON_stringify msg)))
                (charsPerToken mgr) Hcpt) as [Hlo Hhi].
  pose proof (JSON_stringify_length_bounds msg). lia.
Qed.

(** The question of four characters is charged 8 tokens of 4 characters:
    at least the 32 characters of text and wrapping. *)
Lemma message_cost_bounds_witness :
  0 < charsPerToken freshManager
  ∧ Z.of_nat (24 + String.length "user" + String.length "why?")
      ≤ charsPerToken freshManager * msgTokens freshManager (mkMessage "user" "why?").
Proof.
  assert (0 < charsPerToken freshManager) as Hcpt by by_evaluation.
  split; [exact Hcpt|].
  exact (proj1 (message_cost_bounds freshManager (mkMessage "user" "why?") Hcpt)).
Defined.

(** ** More about the trimmer *)

Lemma fitRecent_keeps_all mgr av t l :
  0 < charsPerToken mgr →
  t + getTotalTokens mgr l ≤ av → fitRecent mgr av t l = l.
Proof.
  intros Hcpt. revert t; induction l as [|m l IH]; intros t Hfit; simpl; [done|].
  simpl in Hfit. pose proof (getTotalTokens_nonneg mgr l Hcpt).
  rewrite decide_True by lia. f_equal. apply IH. lia.
Qed.

(** The loop stops at the first message that does not fit on top of
    what it kept. *)
Lemma fitRecent_stops mgr av t l1 d l2 :
  fitRecent mgr av t (l1 ++ d :: l2) = l1 →
  av < t + getTotalTokens mgr l1 + msgTokens mgr d.
Proof.
  revert t; induction l1 as [|x l1 IH]; intros t; simpl.
  - case_decide; [done | lia].
  - case_decide; [|done]. intros [= Heq]. specialize (IH _ Heq). lia.
Qed.

(** X12 (trimming twice).  Trimming a trimmed history changes
    nothing. *)
Theorem trim_idempotent (mgr : ChatSessionManager) (msgs : list Message) :
  trimToContextWindow mgr (trimToContextWindow mgr msgs) = trimToContextWindow mgr msgs.
Proof. apply trim_idem. Qed.

(** X13 (when trimming changes a history).  For a positive
    [charsPerToken], trimming returns the history unchanged exactly
    when the history costs at most [maxContextTokens] minus 500 or has
    at most one message. *)
Theorem trim_unchanged_iff (mgr : ChatSessionManager) (msgs : list Message) :
  0 < charsPerToken mgr →
  trimToContextWindow mgr msgs = msgs
  ↔ getTotalTokens mgr msgs ≤ maxContextTokens mgr - 500 ∨ (length msgs ≤ 1)%nat.
Proof.
  intros Hcpt. destruct msgs as [|a rest]; [simpl; split; [right; lia | done]|].
  rewrite trim_cons. split.
  - case_decide as Hbig.
    + intros [= <-]. right. simpl. lia.
    + intros [= Hkept]. left. simpl.
      apply (f_equal reverse) in Hkept. rewrite reverse_involutive in Hkept.
      apply fitRecent_all in Hkept; [|lia].
      rewrite getTotalTokens_reverse in Hkept. lia.
  - intros [Hfit|Hone].
    + simpl in Hfit. pose proof (getTotalTokens_nonneg mgr rest Hcpt).
      rewrite decide_False by lia.
      rewrite fitRecent_keeps_all, reverse_involutive; [done | done |].
      rewrite getTotalTokens_reverse. lia.
    + destruct rest; [|simpl in Hone; lia]. by case_decide.
Qed.

(** The history of 5819 tokens is over 5500 and has two messages:
    trimming changes it. *)
Lemma trim_unchanged_iff_witness :
  0 < charsPerToken freshManager
  ∧ trimToContextWindow freshManager nearFullHistory ≠ nearFullHistory.
Proof.
  assert (0 < charsPerToken freshManager) as Hcpt by by_evaluation.
  assert (¬ getTotalTokens freshManager nearFullHistory ≤ maxContextTokens freshManager - 500)
    as Hover by by_evaluation.
  assert (¬ (length nearFullHistory ≤ 1)%nat) as Htwo by by_evaluation.
  split; [exact Hcpt|]. intros Hsame.
  destruct (proj1 (trim_unchanged_iff freshManager nearFullHistory Hcpt) Hsame)
    as [Hfit|Hone]; [exact (Hover Hfit) | exact (Htwo Hone)].
Defined.

(** X14 (trimming keeps as much as fits).  When the anchor fits and the
    trimmed history leaves out messages, the newest message left out
    does not fit: its cost on top of the kept messages exceeds what is
    available after the anchor and the reserve of 500. *)
Theorem trim_maximal (mgr : ChatSessionManager) (anchor newestDropped : Message)
    (older kept : list Message) :
  msgTokens mgr anchor ≤ maxContextTokens mgr - 500 →
  trimToContextWindow mgr (anchor :: older ++ newestDropped :: kept) = anchor :: kept →
  maxContextTokens mgr - msgTokens mgr anchor - 500
    < getTotalTokens mgr kept + msgTokens mgr newestDropped.
Proof.
  intros Hfit. rewrite trim_cons, decide_False by lia. intros [= Hkept].
  apply (f_equal reverse) in Hkept. rewrite reverse_involutive in Hkept.
  rewrite reverse_app, reverse_cons, <- app_assoc in Hkept. simpl in Hkept.
  apply fitRecent_stops in Hkept. rewrite getTotalTokens_reverse in Hkept. lia.
Qed.

(** In the mixed history the long packet context is the newest message
    left out: with the two short messages kept it would pass the 5188
    tokens available. *)
Lemma trim_maximal_witness :
  msgTokens freshManager evaluationAnchor ≤ maxContextTokens freshManager - 500
  ∧ maxContextTokens freshManager - msgTokens freshManager evaluationAnchor - 500
      < getTotalTokens freshManager
          [mkMessage "assistant" "SEVERITY: 10"; mkMessage "user" "why?"]
        + msgTokens freshManager (mkMessage "user" longMessage).
Proof.
  assert (msgTokens freshManager evaluationAnchor ≤ maxContextTokens freshManager - 500)
    as Hfit by by_evaluation.
  assert (trimToContextWindow freshManager
            (evaluationAnchor :: [] ++ mkMessage "user" longMessage
               :: [mkMessage "assistant" "SEVERITY: 10"; mkMessage "user" "why?"])
          = evaluationAnchor
              :: [mkMessage "assistant" "SEVERITY: 10"; mkMessage "user" "why?"]) as Htrim
    by by_evaluation.
  split; [exact Hfit|].
  exact (trim_maximal freshManager evaluationAnchor (mkMessage "user" longMessage) []
           [mkMessage "assistant" "SEVERITY: 10"; mkMessage "user" "why?"] Hfit Htrim).
Defined.

(** X15 (a newest message that is too long).  When the anchor fits but
    the newest message alone costs more than what is available after the
    anchor and the reserve, trimming drops every message but the anchor,
    the newest one included. *)
Theorem trim_oversized_newest (mgr : ChatSessionManager) (anchor newest : Message)
    (older : list Message) :
  msgTokens mgr anchor ≤ maxContextTokens mgr - 500 →
  maxContextTokens mgr - msgTokens mgr anchor - 500 < msgTokens mgr newest →
  trimToContextWindow mgr (anchor :: older ++ [newest]) = [anchor].
Proof.
  intros Hfit Hbig. rewrite trim_cons, decide_False by lia.
  rewrite reverse_app. simpl. by rewrite decide_False by lia.
Qed.

(** A packet context of 22000 characters after an answered question:
    the trimmed history is the system prompt alone. *)
Lemma trim_oversized_newest_witness :
  msgTokens freshManager evaluationAnchor ≤ maxContextTokens freshManager - 500
  ∧ maxContextTokens freshManager - msgTokens freshManager evaluationAnchor - 500
      < msgTokens freshManager (mkMessage "user" longMessage)
  ∧ trimToContextWindow freshManager
      (evaluationAnchor :: [mkMessage "user" "why?"] ++ [mkMessage "user" longMessage])
    = [evaluationAnchor].
Proof.
  assert (msgTokens freshManager evaluationAnchor ≤ maxContextTokens freshManager - 500)
    as Hfit by by_evaluation.
  assert (maxContextTokens freshManager - msgTokens freshManager evaluationAnchor - 500
            < msgTokens freshManager (mkMessage "user" longMessage)) as Hbig
    by by_evaluation.
  split; [exact Hfit | split; [exact Hbig|]].
  exact (trim_oversized_newest freshManager evaluationAnchor
           (mkMessage "user" longMessage) [mkMessage "user" "why?"] Hfit Hbig).
Defined.

(** ** Appends, reads and the handlers together *)

Lemma readSession_fits mgr s :
  getTotalTokens mgr (messages s) ≤ maxContextTokens mgr → readSession mgr s = s.
Proof. intros Hfit. unfold readSession. by rewrite decide_False by lia. Qed.

Lemma getMessages_fits mgr now k s :
  live mgr now k s →
  getTotalTokens mgr (messages s) ≤ maxContextTokens mgr →
  getMessages mgr now k = (mgr, Some (messages s)).
Proof.
  intros Hlive Hfit. rewrite (getMessages_live _ _ _ _ Hlive).
  by rewrite decide_False by lia.
Qed.

(** What a read returns right after an append to a live session whose
    anchor and new message fit. *)
Lemma append_read_shape mgr now k s role content systemPrompt anchor rest :
  live mgr now k s → messages s = anchor :: rest → 0 ≤ ttl mgr →
  msgTokens mgr anchor ≤ maxContextTokens mgr - 500 →
  msgTokens mgr (mkMessage role content) ≤ maxContextTokens mgr - msgTokens mgr anchor - 500 →
  ∃ middle,
    (getMessages (addMessage mgr now k role content systemPrompt).1 now k).2
      = Some (anchor :: middle ++ [mkMessage role content]).
Proof.
  intros Hlive Hs Httl Hanchor Hfit.
  rewrite (addMessage_push _ _ _ _ _ _ _ Hlive). cbn [fst].
  set (s1 := pushMessage s now role content).
  assert (live (with_sessions mgr (<[k := s1]> (sessions mgr))) now k s1) as Hlive1
    by (apply live_insert; simpl; lia).
  rewrite (getMessages_live _ _ _ _ Hlive1). simpl maxContextTokens.
  assert (messages s1 = anchor :: rest ++ [mkMessage role content]) as Hs1
    by (unfold s1; simpl; by rewrite Hs).
  case_decide as Hover.
  - rewrite Hs1, trim_with_sessions, trim_cons, decide_False by lia.
    rewrite reverse_app. simpl. rewrite decide_True by lia.
    rewrite reverse_cons. by eexists.
  - rewrite Hs1. by exists rest.
Qed.

(** X16 (the new message is read back last).  After an append to a live
    session, when the anchor fits and the new message fits in what is
    left after the anchor and the reserve, the read that follows returns
    a history that begins with the anchor and ends with the new
    message, trimmed or not. *)
Theorem append_then_read (mgr : ChatSessionManager) (now : Z) (k : string) (s : Session)
    (role content : string) (systemPrompt : option string)
    (anchor : Message) (rest : list Message) :
  live mgr now k s → messages s = anchor :: rest → 0 ≤ ttl mgr →
  msgTokens mgr anchor ≤ maxContextTokens mgr - 500 →
  msgTokens mgr (mkMessage role content) ≤ maxContextTokens mgr - msgTokens mgr anchor - 500 →
  (getMessages (addMessage mgr now k role content systemPrompt).1 now k).2 ≫= head
    = Some anchor
  ∧ (getMessages (addMessage mgr now k role content systemPrompt).1 now k).2 ≫= last
    = Some (mkMessage role content).
Proof.
  intros Hlive Hs Httl Hanchor Hfit.
  destruct (append_read_shape mgr now k s role content systemPrompt anchor rest
              Hlive Hs Httl Hanchor Hfit) as [middle ->].
  simpl. split; [done|].
  rewrite app_comm_cons. apply last_snoc.
Qed.

(** The question asked after one evaluation is the last message of what
    is read back. *)
Lemma append_then_read_witness :
  live evaluatedOnce 2000 "7"
    {| messages := evaluatedOnceHistory; createdAt := 0; lastAccess := 1000; packetId := "7" |}
  ∧ 0 ≤ ttl evaluatedOnce
  ∧ (getMessages (addMessage evaluatedOnce 2000 "7" "user" "why?" None).1 2000 "7").2 ≫= last
      = Some (mkMessage "user" "why?").
Proof.
  assert (0 ≤ ttl evaluatedOnce) as Httl by by_evaluation.
  assert (msgTokens evaluatedOnce evaluationAnchor ≤ maxContextTokens evaluatedOnce - 500)
    as Hanchor by by_evaluation.
  assert (msgTokens evaluatedOnce (mkMessage "user" "why?")
            ≤ maxContextTokens evaluatedOnce - msgTokens evaluatedOnce evaluationAnchor - 500)
    as Hfit by by_evaluation.
  split; [exact live_evaluatedOnce | split; [exact Httl|]].
  exact (proj2 (append_then_read evaluatedOnce 2000 "7" _ "user" "why?" None
                  evaluationAnchor
                  [mkMessage "user" "Packet ID: 7"; mkMessage "assistant" "SEVERITY: 10"]
                  live_evaluatedOnce eq_refl Httl Hanchor Hfit)).
Defined.

(** X17 (a follow-up needs a session).  A question for a packet without
    a live session is answered with nothing: no session is live under
    the key afterwards and every session the manager then holds was
    there before.  A question that is blank after trimming changes
    nothing at all, live session or not. *)
Theorem followup_needs_session (mgr : ChatSessionManager) (now : Z) (k question : string) :
  ((getSession mgr now k).2 = None →
     (chatAskBegin mgr now k question).2 = None
     ∧ (getSession (chatAskBegin mgr now k question).1 now k).2 = None
     ∧ ∀ k' s', sessions (chatAskBegin mgr now k question).1 !! k' = Some s' →
                sessions mgr !! k' = Some s')
  ∧ (JS.trim question = "" → chatAskBegin mgr now k question = (mgr, None)).
Proof.
  split.
  - intros Hnone. unfold chatAskBegin.
    case_bool_decide; [done|]. case_bool_decide; [done|].
    rewrite (getMessages_absent _ _ _ Hnone). cbn [fst snd]. repeat split.
    + unfold getSession. simpl. by rewrite lookup_delete_eq.
    + intros k' s'. simpl. rewrite lookup_delete_Some. by intros [_ ?].
  - intros Hblank. unfold chatAskBegin.
    case_bool_decide; [done|]. by rewrite bool_decide_eq_true_2.
Qed.

(** A question about packet 9, never evaluated, creates nothing. *)
Lemma followup_needs_session_witness :
  (getSession evaluatedOnce 2000 "9").2 = None
  ∧ (chatAskBegin evaluatedOnce 2000 "9" "why?").2 = None
  ∧ (getSession (chatAskBegin evaluatedOnce 2000 "9" "why?").1 2000 "9").2 = None.
Proof.
  assert ((getSession evaluatedOnce 2000 "9").2 = None) as Hnone by by_evaluation.
  destruct (proj1 (followup_needs_session evaluatedOnce 2000 "9" "why?") Hnone)
    as (Hres & Hgone & _).
  exact (conj Hnone (conj Hres Hgone)).
Defined.

(** X18 (one evaluation, then the first question).  For a packet without
    a live session, a positive [charsPerToken] and a non-negative TTL:
    when the evaluation prompt, the packet context and the answer
    together cost at most [maxContextTokens] and each step comes within
    the TTL of the one before, the evaluation sends the model the
    evaluation prompt and the context, the stored history after the
    answer is those two messages and the answer, and the first
    follow-up question replaces the anchor by the chat prompt. *)
Theorem evaluation_then_first_question (mgr : ChatSessionManager) (t0 t1 t2 : Z)
    (k userMessage response question : string) :
  (getSession mgr t0 k).2 = None →
  0 < charsPerToken mgr → 0 ≤ ttl mgr →
  t1 - t0 ≤ ttl mgr → t2 - t1 ≤ ttl mgr →
  k ≠ "" → JS.trim question ≠ "" →
  getTotalTokens mgr
    [evaluationAnchor; mkMessage "user" userMessage; mkMessage "assistant" response]
    ≤ maxContextTokens mgr →
  (evaluateBegin mgr t0 k userMessage).2
    = Some [evaluationAnchor; mkMessage "user" userMessage]
  ∧ sessions (evaluateEnd (evaluateBegin mgr t0 k userMessage).1 t1 k response) !! k
      = Some {| messages := [evaluationAnchor; mkMessage "user" userMessage;
                             mkMessage "assistant" response];
                createdAt := t0; lastAccess := t1; packetId := k |}
  ∧ currentAnchor
      (chatAskBegin (evaluateEnd (evaluateBegin mgr t0 k userMessage).1 t1 k response)
         t2 k question).1 k
      = Some chatAnchor.
Proof.
  intros Hnone Hcpt Httl Ht1 Ht2 Hk Hq Hfit.
  pose proof (msgTokens_nonneg mgr (mkMessage "user" userMessage) Hcpt) as Hu.
  pose proof (msgTokens_nonneg mgr (mkMessage "assistant" response) Hcpt) as Ha.
  cbn [getTotalTokens] in Hfit.
  set (s0 := {| messages := [evaluationAnchor]; createdAt := t0; lastAccess := t0;
                packetId := k |}).
  set (s1 := pushMessage s0 t0 "user" userMessage).
  set (s2 := pushMessage s1 t1 "assistant" response).
  set (mgrd := with_sessions mgr (delete k (sessions mgr))).
  set (mgr0 := with_sessions mgrd (<[k := s0]> (sessions mgrd))).
  set (mgr1 := with_sessions mgr0 (<[k := s1]> (sessions mgr0))).
  set (mgr2 := with_sessions mgr1 (<[k := s2]> (sessions mgr1))).
  assert (getTotalTokens mgr (messages s0) ≤ maxContextTokens mgr) as Hfit0
    by (cbn [s0 messages getTotalTokens]; lia).
  assert (getTotalTokens mgr (messages s1) ≤ maxContextTokens mgr) as Hfit1
    by (cbn [s1 s0 pushMessage with_lastAccess with_messages messages app getTotalTokens];
        lia).
  assert (getTotalTokens mgr (messages s2) ≤ maxContextTokens mgr) as Hfit2
    by (cbn [s2 s1 s0 pushMessage with_lastAccess with_messages messages app
             getTotalTokens]; lia).
  assert (live mgr0 t0 k s0) as Hlive0 by (apply live_insert; simpl; lia).
  assert (live mgr1 t0 k s1) as Hlive1' by (apply live_insert; simpl; lia).
  assert (live mgr1 t1 k s1) as Hlive1 by (apply live_insert; simpl; lia).
  assert (live mgr2 t2 k s2) as Hlive2 by (apply live_insert; simpl; lia).
  assert (evaluateBegin mgr t0 k userMessage = (mgr1, Some (messages s1))) as Hbegin.
  { unfold evaluateBegin. rewrite (getMessages_absent _ _ _ Hnone).
    unfold createSession. cbn [fst snd]. fold evaluationAnchor. fold s0. fold mgrd.
    fold mgr0.
    rewrite (getMessages_fits mgr0 t0 k s0 Hlive0)
      by (unfold mgr0; rewrite getTotalTokens_with_sessions; exact Hfit0).
    cbn [fst].
    rewrite (addMessage_push _ _ _ _ _ _ _ Hlive0). cbn [fst]. fold s1. fold mgr1.
    apply (getMessages_fits mgr1 t0 k s1 Hlive1').
    unfold mgr1. rewrite getTotalTokens_with_sessions. exact Hfit1. }
  rewrite Hbegin. cbn [fst snd].
  unfold evaluateEnd. rewrite (addMessage_push _ _ _ _ _ _ _ Hlive1). cbn [fst].
  fold s2. fold mgr2.
  split; [done | split; [apply lookup_insert_eq|]].
  rewrite (chatAskBegin_anchor mgr2 t2 k question s2 Hlive2); try done.
  rewrite readSession_fits; [done|].
  unfold mgr2. rewrite getTotalTokens_with_sessions. exact Hfit2.
Qed.

(** The first evaluation of packet 7 on the new manager, answered after
    a second, and the first question a second later. *)
Lemma evaluation_then_first_question_witness :
  (getSession freshManager 0 "7").2 = None
  ∧ 0 < charsPerToken freshManager
  ∧ 0 ≤ ttl freshManager
  ∧ currentAnchor
      (chatAskBegin
         (evaluateEnd (evaluateBegin freshManager 0 "7" "Packet ID: 7").1 1000 "7"
            "SEVERITY: 10")
         2000 "7" "why?").1 "7"
      = Some chatAnchor.
Proof.
  assert ((getSession freshManager 0 "7").2 = None) as Hnone by by_evaluation.
  assert (0 < charsPerToken freshManager) as Hcpt by by_evaluation.
  assert (0 ≤ ttl freshManager) as Httl by by_evaluation.
  assert (1000 - 0 ≤ ttl freshManager) as Ht1 by by_evaluation.
  assert (2000 - 1000 ≤ ttl freshManager) as Ht2 by by_evaluation.
  assert ("7" ≠ "") as Hk by by_evaluation.
  assert (JS.trim "why?" ≠ "") as Hq by by_evaluation.
  assert (getTotalTokens freshManager
            [evaluationAnchor; mkMessage "user" "Packet ID: 7";
             mkMessage "assistant" "SEVERITY: 10"]
          ≤ maxContextTokens freshManager) as Hfit by by_evaluation.
  split; [exact Hnone | split; [exact Hcpt | split; [exact Httl|]]].
  exact (proj2 (proj2 (evaluation_then_first_question freshManager 0 1000 2000 "7"
                         "Packet ID: 7" "SEVERITY: 10" "why?"
                         Hnone Hcpt Httl Ht1 Ht2 Hk Hq Hfit))).
Defined.

(** ** The role of the anchor *)

Lemma systemAnchored_insert mgr k s :
  systemAnchored mgr → role <$> head (messages s) = Some "system" →
  systemAnchored (with_sessions mgr (<[k := s]> (sessions mgr))).
Proof.
  intros Hinv Hs k' s'. simpl.
  destruct (decide (k = k')) as [->|Hne].
  - rewrite lookup_insert_eq. by intros [= <-].
  - rewrite lookup_insert_ne by done. apply Hinv.
Qed.

Lemma systemAnchored_delete mgr k :
  systemAnchored mgr → systemAnchored (with_sessions mgr (delete k (sessions mgr))).
Proof.
  intros Hinv k' s'. simpl. rewrite lookup_delete_Some. intros [_ Hk']. by apply (Hinv k').
Qed.

Lemma systemAnchored_getMessages mgr now k :
  systemAnchored mgr → systemAnchored (getMessages mgr now k).1.
Proof.
  intros Hinv.
  destruct (getSession mgr now k).2 as [s|] eqn:Hg.
  - apply getSession_Some in Hg. rewrite (getMessages_read _ _ _ _ Hg). simpl.
    apply systemAnchored_insert; [done|].
    rewrite readSession_head. apply (Hinv k), Hg.
  - rewrite (getMessages_absent _ _ _ Hg). by apply systemAnchored_delete.
Qed.

Lemma systemAnchored_addMessage mgr now k role content systemPrompt :
  systemAnchored mgr → systemAnchored (addMessage mgr now k role content systemPrompt).1.
Proof.
  intros Hinv.
  destruct (getSession mgr now k).2 as [s|] eqn:Hg.
  - apply getSession_Some in Hg. rewrite (addMessage_push _ _ _ _ _ _ _ Hg). simpl.
    apply systemAnchored_insert; [done|].
    pose proof (Hinv k s (proj1 Hg)) as Hs. simpl.
    by destruct (messages s).
  - rewrite (addMessage_absent _ _ _ _ _ _ Hg). simpl.
    by apply systemAnchored_insert.
Qed.

Lemma systemAnchored_switchToChat mgr k :
  systemAnchored mgr → systemAnchored (switchToChat mgr k).
Proof.
  intros Hinv. unfold switchToChat.
  destruct (sessions mgr !! k) as [s|] eqn:Hk; [|done].
  apply systemAnchored_insert; [done|]. simpl.
  pose proof (Hinv _ _ Hk) as Hs. by destruct (messages s).
Qed.

Lemma reachable_systemAnchored mgr : reachable mgr → systemAnchored mgr.
Proof.
  induction 1 as [t|mgr now k _ IH|mgr now k prompt _ IH|mgr now k role content sp _ IH
                  |mgr now k _ IH|mgr now _ IH|mgr k _ IH|mgr now k q _ IH].
  - intros k s. simpl. by rewrite lookup_empty.
  - unfold getSession. destruct (sessions mgr !! k) as [s|]; [|done].
    case_decide; simpl; [by apply systemAnchored_delete | done].
  - by apply systemAnchored_insert.
  - by apply systemAnchored_addMessage.
  - by apply systemAnchored_getMessages.
  - intros k s Hk. apply (IH k).
    rewrite cleanup_lookup in Hk. destruct (sessions mgr !! k); [|done].
    by case_decide.
  - by apply systemAnchored_delete.
  - unfold chatAskBegin. case_bool_decide; [done|]. case_bool_decide; [done|].
    pose proof (systemAnchored_getMessages mgr now k IH) as H1.
    destruct (getMessages mgr now k) as [mgr1 [msgs|]]; simpl in *; [|done].
    apply systemAnchored_getMessages, systemAnchored_addMessage.
    case_decide; [by apply systemAnchored_switchToChat | done].
Qed.

Lemma getMessages_head_system mgr now k msgs :
  systemAnchored mgr → (getMessages mgr now k).2 = Some msgs →
  role <$> head msgs = Some "system".
Proof.
  intros Hinv Hread.
  destruct (getMessages_Some _ _ _ _ Hread) as [s Hlive].
  rewrite (getMessages_read _ _ _ _ Hlive) in Hread. injection Hread as <-.
  rewrite readSession_head. apply (Hinv k), Hlive.
Qed.

(** X19 (index 0 is a system message).  In every manager the server can
    reach, the first message of every stored history has the role
    system, and so has the first message of every history a read
    returns. *)
Theorem anchor_is_system (mgr : ChatSessionManager) :
  reachable mgr →
  systemAnchored mgr
  ∧ ∀ now k msgs, (getMessages mgr now k).2 = Some msgs →
                  role <$> head msgs = Some "system".
Proof.
  intros Hinv%reachable_systemAnchored. split; [done|].
  intros now k msgs. by apply getMessages_head_system.
Qed.

(** What is read back after the over-long history was cut starts with a
    system message. *)
Lemma anchor_is_system_witness :
  reachable overFull
  ∧ (getMessages overFull 5 "7").2 = Some [evaluationAnchor]
  ∧ role <$> head [evaluationAnchor] = Some "system".
Proof.
  assert ((getMessages overFull 5 "7").2 = Some [evaluationAnchor]) as Hread
    by by_evaluation.
  split; [exact reachable_overFull | split; [exact Hread|]].
  exact (proj2 (anchor_is_system overFull reachable_overFull) 5 "7" _ Hread).
Defined.

(** X20 (the history shown to the user).  In every manager the server
    can reach, the history the chat endpoint returns is what a read
    returns without its first message, the system prompt; the manager
    is left as the read leaves it, and nothing is returned exactly when
    the read returns nothing. *)
Theorem chatHistory_drops_anchor (mgr : ChatSessionManager) (now : Z) (k : string) :
  reachable mgr →
  (chatHistory mgr now k).1 = (getMessages mgr now k).1
  ∧ ((chatHistory mgr now k).2 = None ↔ (getMessages mgr now k).2 = None)
  ∧ ∀ shown, (chatHistory mgr now k).2 = Some shown →
             ∃ anchor, (getMessages mgr now k).2 = Some (anchor :: shown)
                       ∧ role anchor = "system".
Proof.
  intros Hinv%reachable_systemAnchored.
  pose proof (getMessages_head_system mgr now k) as Hsys.
  unfold chatHistory.
  destruct (getMessages mgr now k) as [mgr1 [msgs|]]; simpl in *.
  - split; [done | split; [done|]]. intros shown [= <-].
    specialize (Hsys msgs Hinv eq_refl).
    destruct msgs as [|a rest]; [done|]. exists a. split; [done|].
    by injection Hsys.
  - split; [done | split; [done | done]].
Qed.

(** After one evaluation the endpoint shows the context and the answer,
    not the system prompt. *)
Lemma chatHistory_drops_anchor_witness :
  reachable evaluatedOnce
  ∧ (chatHistory evaluatedOnce 2000 "7").2
      = Some [mkMessage "user" "Packet ID: 7"; mkMessage "assistant" "SEVERITY: 10"]
  ∧ (chatHistory evaluatedOnce 2000 "7").1 = (getMessages evaluatedOnce 2000 "7").1.
Proof.
  assert ((chatHistory evaluatedOnce 2000 "7").2
            = Some [mkMessage "user" "Packet ID: 7"; mkMessage "assistant" "SEVERITY: 10"])
    as Hshown by by_evaluation.
  split; [exact reachable_evaluatedOnce | split; [exact Hshown|]].
  exact (proj1 (chatHistory_drops_anchor evaluatedOnce 2000 "7" reachable_evaluatedOnce)).
Defined.

(** * The memory statistics *)

Lemma addChars_from (t : nat) (msgs : list Message) :
  addChars t msgs = (t + addChars 0 msgs)%nat.
Proof.
  unfold addChars. revert t. induction msgs as [|m l IH]; intros t; cbn [foldl]; [lia|].
  rewrite (IH (t + String.length (JSON_stringify m))%nat),
          (IH (0 + String.length (JSON_stringify m))%nat). lia.
Qed.

Lemma addChars_lower (msgs : list Message) :
  (24 * length msgs ≤ addChars 0 msgs)%nat.
Proof.
  induction msgs as [|m l IH]; [simpl; lia|].
  change (addChars 0 (m :: l))
    with (addChars (0 + String.length (JSON_stringify m)) l).
  rewrite addChars_from. simpl length.
  pose proof (JSON_stringify_length_bounds m). lia.
Qed.

(** The contribution of one session does not depend on when the loop
    meets it. *)
Lemma countSessions_step_comm (s1 s2 : Session) (totals : nat * nat) :
  ((((totals.1 + length (messages s2)) + length (messages s1))%nat,
    addChars (addChars totals.2 (messages s2)) (messages s1)) : nat * nat)
  = (((totals.1 + length (messages s1)) + length (messages s2))%nat,
     addChars (addChars totals.2 (messages s1)) (messages s2)).
Proof.
  f_equal; [lia|].
  rewrite (addChars_from (addChars _ _)), (addChars_from totals.2 (messages s2)).
  rewrite (addChars_from (addChars _ _)), (addChars_from totals.2 (messages s1)). lia.
Qed.

Lemma countSessions_insert (m : gmap string Session) (k : string) (s : Session) :
  m !! k = None →
  countSessions (<[k := s]> m)
    = (((countSessions m).1 + length (messages s))%nat,
       ((countSessions m).2 + addChars 0 (messages s))%nat).
Proof.
  intros Hk. unfold countSessions.
  rewrite map_fold_insert_L; [|intros; apply countSessions_step_comm | done].
  cbn [fst snd]. by rewrite addChars_from.
Qed.

Lemma countSessions_delete (m : gmap string Session) (k : string) (s : Session) :
  m !! k = Some s →
  countSessions m
    = (((countSessions (delete k m)).1 + length (messages s))%nat,
       ((countSessions (delete k m)).2 + addChars 0 (messages s))%nat).
Proof.
  intros Hk. rewrite <- (insert_delete_id m k s Hk) at 1.
  apply countSessions_insert, lookup_delete_eq.
Qed.

Lemma countSessions_lower (m : gmap string Session) :
  (24 * (countSessions m).1 ≤ (countSessions m).2)%nat
  ∧ ((∀ k s, m !! k = Some s → messages s ≠ []) → (size m ≤ (countSessions m).1)%nat).
Proof.
  induction m as [|k s m Hk _ IH] using map_first_key_ind.
  - unfold countSessions. rewrite map_fold_empty. simpl. split; [lia|].
    intros _. by rewrite map_size_empty.
  - rewrite (countSessions_insert m k s Hk). cbn [fst snd].
    destruct IH as [IHc IHm]. pose proof (addChars_lower (messages s)). split; [lia|].
    intros Hne. rewrite map_size_insert_None by done.
    assert (messages s ≠ []) as Hs by (apply (Hne k); apply lookup_insert_eq).
    assert ((size m ≤ (countSessions m).1)%nat) as Hm.
    { apply IHm. intros k' s' Hk'. apply (Hne k').
      rewrite lookup_insert_ne; [done|]. intros ->. congruence. }
    destruct (messages s); [done|]. simpl. lia.
Qed.

(** X21 (what the statistics count at least).  The estimated bytes are
    at least 24 for every message counted plus 200 for every session.
    In every manager the server can reach each session is counted with
    at least one message, so the estimate is at least 224 bytes for
    every session. *)
Theorem stats_lower_bounds (mgr : ChatSessionManager) :
  (24 * totalMessages (getStats mgr) + 200 * activeSessions (getStats mgr)
     ≤ estimatedMemoryBytes mgr)%nat
  ∧ (reachable mgr →
     (activeSessions (getStats mgr) ≤ totalMessages (getStats mgr))%nat
     ∧ (224 * activeSessions (getStats mgr) ≤ estimatedMemoryBytes mgr)%nat).
Proof.
  unfold estimatedMemoryBytes, getStats. cbn [totalMessages activeSessions].
  destruct (countSessions_lower (sessions mgr)) as [Hc Hm]. split; [lia|].
  intros Hinv%reachable_anchored. specialize (Hm Hinv). lia.
Qed.

(** After one evaluation: one session, three messages. *)
Lemma stats_lower_bounds_witness :
  reachable evaluatedOnce
  ∧ (activeSessions (getStats evaluatedOnce) ≤ totalMessages (getStats evaluatedOnce))%nat.
Proof.
  split; [exact reachable_evaluatedOnce|].
  exact (proj1 (proj2 (stats_lower_bounds evaluatedOnce) reachable_evaluatedOnce)).
Defined.

(** X22 (the statistics after a session is created).  Creating a
    session under a key that has no entry adds one session, one message
    and 200 bytes plus the length of the serialised system message. *)
Theorem stats_after_createSession (mgr : ChatSessionManager) (now : Z)
    (k prompt : string) :
  sessions mgr !! k = None →
  activeSessions (getStats (createSession mgr now k prompt).1)
    = S (activeSessions (getStats mgr))
  ∧ totalMessages (getStats (createSession mgr now k prompt).1)
    = S (totalMessages (getStats mgr))
  ∧ estimatedMemoryBytes (createSession mgr now k prompt).1
    = (estimatedMemoryBytes mgr + 200
       + String.length (JSON_stringify (mkMessage "system" (JS.trim prompt))))%nat.
Proof.
  intros Hk. unfold estimatedMemoryBytes, getStats, createSession.
  cbn [fst totalMessages activeSessions sessions with_sessions].
  rewrite (countSessions_insert _ _ _ Hk), map_size_insert_None by done.
  cbn [fst snd messages length]. unfold addChars. cbn [foldl]. repeat split; lia.
Qed.

(** The first session of the new manager. *)
Lemma stats_after_createSession_witness :
  sessions freshManager !! "7" = None
  ∧ activeSessions (getStats (createSession freshManager 0 "7" SYSTEM_PROMPT).1) = 1%nat
  ∧ totalMessages (getStats (createSession freshManager 0 "7" SYSTEM_PROMPT).1) = 1%nat.
Proof.
  assert (sessions freshManager !! "7" = None) as Hk by reflexivity.
  destruct (stats_after_createSession freshManager 0 "7" SYSTEM_PROMPT Hk) as (Ha & Ht & _).
  exact (conj Hk (conj Ha Ht)).
Defined.

(** X23 (the statistics after a session is cleared).  Clearing a stored
    session takes one session, its messages and 200 bytes plus the
    length of its serialised messages off the statistics. *)
Theorem stats_after_clearSession (mgr : ChatSessionManager) (k : string) (s : Session) :
  sessions mgr !! k = Some s →
  activeSessions (getStats mgr) = S (activeSessions (getStats (clearSession mgr k).1))
  ∧ totalMessages (getStats mgr)
    = (totalMessages (getStats (clearSession mgr k).1) + length (messages s))%nat
  ∧ estimatedMemoryBytes mgr
    = (estimatedMemoryBytes (clearSession mgr k).1 + 200 + addChars 0 (messages s))%nat.
Proof.
  intros Hk. unfold estimatedMemoryBytes, getStats, clearSession.
  cbn [fst totalMessages activeSessions sessions with_sessions].
  rewrite (countSessions_delete _ _ _ Hk). cbn [fst snd].
  assert (size (sessions mgr) = S (size (delete k (sessions mgr)))) as Hsize.
  { rewrite <- (insert_delete_id (sessions mgr) k s Hk) at 1.
    apply map_size_insert_None, lookup_delete_eq. }
  repeat split; lia.
Qed.

(** Clearing the evaluated session takes its three messages off. *)
Lemma stats_after_clearSession_witness :
  sessions evaluatedOnce !! "7" =
    Some {| messages := evaluatedOnceHistory; createdAt := 0; lastAccess := 1000;
            packetId := "7" |}
  ∧ totalMessages (getStats evaluatedOnce)
    = (totalMessages (getStats (clearSession evaluatedOnce "7").1) + 3)%nat.
Proof.
  assert (sessions evaluatedOnce !! "7" =
            Some {| messages := evaluatedOnceHistory; createdAt := 0; lastAccess := 1000;
                    packetId := "7" |}) as Hk by by_evaluation.
  split; [exact Hk|].
  exact (proj1 (proj2 (stats_after_clearSession evaluatedOnce "7" _ Hk))).
Defined.

(** The statistics of the new manager and after one evaluation. *)
Example getStats_examples :
  getStats freshManager =
    {| activeSessions := 0; totalMessages := 0;
       estimatedMemoryMB := "0.00"; estimatedMemoryKB := "0.00";
       description :=
         "Chat context memory - stores conversation history for each packet evaluation" |}
  ∧ activeSessions (getStats evaluatedOnce) = 1%nat
  ∧ totalMessages (getStats evaluatedOnce) = 3%nat
  ∧ estimatedMemoryKB (getStats evaluatedOnce) = "1.50".
Proof. repeat split; by_evaluation. Qed.

(** * Formatting a packet *)

Lemma substring0_length (n : nat) (s : string) :
  String.length (substring 0 n s) = Nat.min n (String.length s).
Proof.
  revert s; induction n as [|n IH]; intros [|c s]; simpl; try done.
  by rewrite IH.
Qed.

Lemma substring0_app (n : nat) (s t : string) :
  (n ≤ String.length s)%nat →
  substring 0 n (substring 0 n s +:+ t) = substring 0 n s.
Proof.
  revert s; induction n as [|n IH]; intros [|c s] Hlen; simpl in *; try done;
    try lia.
  - by destruct t.
  - by destruct t.
  - rewrite IH; [done | lia].
Qed.

Lemma substring0_all (n : nat) (s : string) :
  (String.length s ≤ n)%nat → substring 0 n s = s.
Proof.
  revert s; induction n as [|n IH]; intros [|c s] Hlen; simpl in *; try done;
    try lia.
  rewrite IH; [done | lia].
Qed.

(** X24 (the payload sent to the model).  The payload text of a target
    packet keeps the first 500 characters of a string [raw_data] and is
    never longer than 503: a string of at most 500 characters is sent
    as it is, a longer one as its first 500 characters and three dots.
    It is sent on the line that starts with Payload.  The text for a
    context packet is the text the same packet would get as target with
    its payload fields taken away. *)
Theorem packet_payload (packet : Packet) (s : string) :
  (String.length (toString (rawDataPreview (JSString s))) ≤ 503)%nat
  ∧ substring 0 500 (toString (rawDataPreview (JSString s))) = substring 0 500 s
  ∧ ((String.length s ≤ 500)%nat → rawDataPreview (JSString s) = JSString s)
  ∧ ((500 < String.length s)%nat →
     toString (rawDataPreview (JSString s)) = substring 0 500 s +:+ "...")
  ∧ (raw_data packet = JSString s → s ≠ "" →
     ("Payload: " +:+ toString (rawDataPreview (JSString s))) ∈ formatParts packet true)
  ∧ formatPacketForAI packet false =
      formatPacketForAI
        {| id := id packet; protocol := protocol packet;
           src_ip := src_ip packet; src_port := src_port packet;
           dst_ip := dst_ip packet; dst_port := dst_port packet;
           size_ := size_ packet; flags := flags packet;
           payload_preview := JSUndefined; raw_data := JSUndefined;
           summary := summary packet |} true.
Proof.
  unfold rawDataPreview. repeat split.
  - case_decide as Hlong; cbn [toString].
    + rewrite string_length_app, substring0_length.
      change (String.length "...") with 3%nat. lia.
    + lia.
  - case_decide as Hlong; simpl toString.
    + apply substring0_app. lia.
    + done.
  - intros Hshort. by rewrite decide_False by lia.
  - intros Hlong. by rewrite decide_True by lia.
  - intros Hraw Hs. unfold formatParts. rewrite Hraw. cbv iota.
    apply elem_of_app; right. apply elem_of_app; right.
    apply elem_of_app; right. apply elem_of_app; left.
    unfold pushIf, truthy. rewrite bool_decide_eq_false_2 by done.
    apply list_elem_of_singleton. reflexivity.
Qed.

(** The payload of 600 characters goes out as 500 characters and three
    dots, and a source port of 0 is shown as N/A. *)
Lemma packet_payload_witness :
  raw_data synPacket = JSString (JS.repeat "a" 600)
  ∧ JS.repeat "a" 600 ≠ ""
  ∧ ("Payload: " +:+ toString (rawDataPreview (JSString (JS.repeat "a" 600))))
      ∈ formatParts synPacket true
  ∧ String.length (toString (rawDataPreview (JSString (JS.repeat "a" 600)))) = 503%nat.
Proof.
  assert (raw_data synPacket = JSString (JS.repeat "a" 600)) as Hraw by reflexivity.
  assert (JS.repeat "a" 600 ≠ "") as Hs by by_evaluation.
  destruct (packet_payload synPacket (JS.repeat "a" 600)) as (_ & _ & _ & _ & Hline & _).
  split; [exact Hraw | split; [exact Hs | split; [exact (Hline Hraw Hs)|]]].
  by_evaluation.
Defined.

Example formatPacketForAI_context :
  formatPacketForAI synPacket false =
    "Packet ID: 7
Protocol: TCP
Source: 10.0.0.1:N/A
Destination: 10.0.0.2:443
Size: 654 bytes
Flags: S
Summary: TCP 10.0.0.1 > 10.0.0.2:443".
Proof. by_evaluation. Qed.

(** * Checking the answer of the model *)

Lemma string_app_nonempty (a s b : string) : s ≠ "" → a +:+ s +:+ b ≠ "".
Proof. intros Hs. destruct a; simpl; [|done]. by destruct s. Qed.

Lemma matchAt_Many (p : ascii → bool) (r : list Atom) (s : string) :
  matchAt (Many p :: r) s =
    matchAt r s
    || match s with
       | String c s' => p c && matchAt (Many p :: r) s'
       | EmptyString => false
       end.
Proof. by destruct s. Qed.

Lemma matchAt_One (p : ascii → bool) (r : list Atom) (c : ascii) (s : string) :
  matchAt (One p :: r) (String c s) = p c && matchAt r s.
Proof. reflexivity. Qed.

Lemma test_unfold (r : list Atom) (s : string) :
  test r s =
    matchAt r s
    || match s with
       | String _ s' => test r s'
       | EmptyString => false
       end.
Proof. by destruct s. Qed.

(** A match at the start of a text is a match at the start of every
    longer text. *)
Lemma matchAt_app_r (r : list Atom) (s t : string) :
  matchAt r s = true → matchAt r (s +:+ t) = true.
Proof.
  revert s. induction r as [|[p|p] r IH]; intros s; [done | |].
  - destruct s as [|c s]; [done|].
    change (String c s +:+ t) with (String c (s +:+ t)). rewrite !matchAt_One.
    intros [Hc Hr]%andb_prop. by rewrite Hc, (IH s Hr).
  - induction s as [|c s IHs].
    + rewrite matchAt_Many, orb_false_r. intros Hr.
      rewrite matchAt_Many, (IH "" Hr). done.
    + change (String c s +:+ t) with (String c (s +:+ t)).
      rewrite (matchAt_Many p r (String c s)), (matchAt_Many p r (String c (s +:+ t))).
      intros [Hr|[Hc Hm]%andb_prop]%orb_prop.
      * pose proof (IH (String c s) Hr) as Hr'.
        change (String c s +:+ t) with (String c (s +:+ t)) in Hr'. by rewrite Hr'.
      * rewrite Hc, (IHs Hm). by rewrite orb_true_r.
Qed.

Lemma test_app_r (r : list Atom) (s t : string) :
  test r s = true → test r (s +:+ t) = true.
Proof.
  induction s as [|c s IH].
  - rewrite test_unfold, orb_false_r. intros Hr.
    rewrite test_unfold, (matchAt_app_r r "" t Hr). done.
  - change (String c s +:+ t) with (String c (s +:+ t)).
    rewrite (test_unfold r (String c s)), (test_unfold r (String c (s +:+ t))).
    intros [Hr|Hs]%orb_prop.
    + pose proof (matchAt_app_r r (String c s) t Hr) as Hr'.
      change (String c s +:+ t) with (String c (s +:+ t)) in Hr'. by rewrite Hr'.
    + rewrite (IH Hs). by rewrite orb_true_r.
Qed.

Lemma test_app_l (r : list Atom) (s t : string) :
  test r s = true → test r (t +:+ s) = true.
Proof.
  intros Hs. induction t as [|c t IH]; [done|].
  change (String c t +:+ s) with (String c (t +:+ s)).
  rewrite test_unfold, IH. by rewrite orb_true_r.
Qed.

Lemma test_here (r : list Atom) (s : string) :
  matchAt r s = true → test r s = true.
Proof. intros Hr. by rewrite test_unfold, Hr. Qed.

Lemma test_around (r : list Atom) (a s b : string) :
  test r s = true → test r (a +:+ s +:+ b) = true.
Proof. intros Hs. by apply test_app_l, test_app_r. Qed.

Lemma hasNumberField_around (name a s b : string) :
  hasNumberField name s = true → hasNumberField name (a +:+ s +:+ b) = true.
Proof.
  unfold hasNumberField.
  intros [[[H|H]%orb_prop|H]%orb_prop|H]%orb_prop;
    rewrite (test_around _ a s b H); by rewrite ?orb_true_r.
Qed.

Lemma validate_Valid (response : string) :
  validateEvaluationResponse response = Valid
  ↔ response ≠ ""
    ∧ (test rePacketIdentification response
       || test rePacketIdentificationBold response
       || test rePacketId response) = true
    ∧ hasNumberField "SEVERITY" response = true
    ∧ hasNumberField "CONFIDENCE" response = true.
Proof.
  unfold validateEvaluationResponse.
  case_bool_decide as Hempty; [split; [done | by intros [? _]]|].
  destruct (test rePacketIdentification response
            || test rePacketIdentificationBold response
            || test rePacketId response); simpl; [|split; [done | by intros (_ & ? & _)]].
  destruct (hasNumberField "SEVERITY" response); simpl;
    [|split; [done | by intros (_ & _ & ? & _)]].
  destruct (hasNumberField "CONFIDENCE" response); simpl;
    [done | split; [done | by intros (_ & _ & _ & ?)]].
Qed.

(** X25 (text around a valid answer).  The check looks for its three
    fields anywhere in the answer: an answer that is valid stays valid
    with any text put before it and after it. *)
Theorem validate_surrounded (response before after : string) :
  validateEvaluationResponse response = Valid →
  validateEvaluationResponse (before +:+ response +:+ after) = Valid.
Proof.
  rewrite !validate_Valid. intros (Hne & Hid & Hsev & Hconf).
  split; [by apply string_app_nonempty|].
  split; [|split; by apply hasNumberField_around].
  apply orb_prop in Hid as [[H|H]%orb_prop|H];
    rewrite (test_around _ before response after H); by rewrite ?orb_true_r.
Qed.

(** The three lines the prompt asks for, inside a longer answer. *)
Lemma validate_surrounded_witness :
  validateEvaluationResponse "PACKET_IDENTIFICATION: 7 SEVERITY: 45 CONFIDENCE: 75" = Valid
  ∧ validateEvaluationResponse
      ("Here is my assessment. "
       +:+ "PACKET_IDENTIFICATION: 7 SEVERITY: 45 CONFIDENCE: 75" +:+ " Thank you.") = Valid.
Proof.
  assert (validateEvaluationResponse "PACKET_IDENTIFICATION: 7 SEVERITY: 45 CONFIDENCE: 75"
          = Valid) as Hvalid by reflexivity.
  split; [exact Hvalid|].
  exact (validate_surrounded _ "Here is my assessment. " " Thank you." Hvalid).
Defined.

(** An expression that asks for a character of a class only matches
    texts that have such a character. *)
Lemma matchAt_needs (r1 r2 : list Atom) (p : ascii → bool) (s : string) :
  matchAt (r1 ++ One p :: r2) s = true → test [One p] s = true.
Proof.
  revert s. induction r1 as [|[q|q] r1 IH]; intros s.
  - destruct s as [|c s]; [done|]. cbn [app]. rewrite matchAt_One.
    intros [Hc _]%andb_prop. rewrite test_unfold, matchAt_One, Hc. done.
  - destruct s as [|c s]; [done|]. cbn [app]. rewrite matchAt_One.
    intros [_ Hr]%andb_prop. rewrite test_unfold, (IH s Hr). by rewrite orb_true_r.
  - cbn [app]. induction s as [|c s IHs].
    + rewrite matchAt_Many, orb_false_r. apply IH.
    + rewrite matchAt_Many. intros [Hr|[_ Hm]%andb_prop]%orb_prop.
      * by apply IH.
      * rewrite test_unfold, (IHs Hm). by rewrite orb_true_r.
Qed.

Lemma test_needs (r1 r2 : list Atom) (p : ascii → bool) (s : string) :
  test (r1 ++ One p :: r2) s = true → test [One p] s = true.
Proof.
  induction s as [|c s IH].
  - rewrite test_unfold, orb_false_r. apply matchAt_needs.
  - rewrite test_unfold. intros [Hr|Hs]%orb_prop.
    + by apply matchAt_needs in Hr.
    + rewrite test_unfold, (IH Hs). by rewrite orb_true_r.
Qed.

Lemma reFieldColon_digit (name : string) :
  reFieldColon name =
    ((literal name ++ [Many JS.is_space; One isColon; Many JS.is_space])
       ++ One isDigit :: [Many isDigit])%list.
Proof. unfold reFieldColon. by rewrite <- app_assoc. Qed.

Lemma reFieldSpace_digit (name : string) :
  reFieldSpace name =
    ((literal name ++ [One JS.is_space; Many JS.is_space])
       ++ One isDigit :: [Many isDigit])%list.
Proof. unfold reFieldSpace. by rewrite <- app_assoc. Qed.

Lemma hasNumberField_digit (name response : string) :
  hasNumberField name response = true → test [One isDigit] response = true.
Proof.
  unfold hasNumberField. rewrite !reFieldColon_digit, !reFieldSpace_digit.
  intros [[[H|H]%orb_prop|H]%orb_prop|H]%orb_prop; by apply test_needs in H.
Qed.

(** X26 (no number, no valid answer).  An answer without any digit is
    never valid: the severity and the confidence have to be numbers. *)
Theorem validate_needs_digit (response : string) :
  test [One isDigit] response = false →
  validateEvaluationResponse response ≠ Valid.
Proof.
  intros Hnone. rewrite validate_Valid. intros (_ & _ & Hsev & _).
  apply hasNumberField_digit in Hsev. congruence.
Qed.

(** Severity and confidence given in words. *)
Lemma validate_needs_digit_witness :
  test [One isDigit] "PACKET_IDENTIFICATION: x SEVERITY: low CONFIDENCE: high" = false
  ∧ validateEvaluationResponse "PACKET_IDENTIFICATION: x SEVERITY: low CONFIDENCE: high"
    ≠ Valid.
Proof.
  assert (test [One isDigit] "PACKET_IDENTIFICATION: x SEVERITY: low CONFIDENCE: high"
          = false) as Hnone by reflexivity.
  split; [exact Hnone|].
  exact (validate_needs_digit _ Hnone).
Defined.

Lemma sameLetter_refl (c : ascii) : sameLetter c c = true.
Proof. unfold sameLetter. apply Ascii.eqb_refl. Qed.

Lemma matchAt_literal (text : string) (r : list Atom) (s : string) :
  matchAt (literal text ++ r)%list (text +:+ s) = matchAt r s.
Proof.
  induction text as [|c text IH]; [done|].
  change (literal (String c text) ++ r)%list
    with (One (sameLetter c) :: (literal text ++ r)%list).
  change (String c text +:+ s) with (String c (text +:+ s)).
  by rewrite matchAt_One, sameLetter_refl, IH.
Qed.

(** The name of a field, a colon, a space and a digit: what
    [/NAME\s*:\s*(\d+)/i] looks for. *)
Lemma matchAt_field (name : string) (d : ascii) (rest : string) :
  isDigit d = true →
  matchAt (reFieldColon name) (name +:+ ": " +:+ String d rest) = true.
Proof.
  intros Hd. unfold reFieldColon. rewrite matchAt_literal.
  change (": " +:+ String d rest) with (String ":" (String " " (String d rest))).
  rewrite matchAt_Many, matchAt_One.
  change (isColon ":") with true. rewrite andb_true_l.
  rewrite matchAt_Many, (matchAt_Many _ _ (String d rest)), !matchAt_One, Hd.
  assert (matchAt [Many isDigit] rest = true) as -> by by rewrite matchAt_Many.
  change (JS.is_space " ") with true. change (isDigit " ") with false.
  reflexivity.
Qed.

(** X27 (the format the prompt asks for is accepted).  An answer that
    has, in this order and with any text around them, the words
    PACKET_IDENTIFICATION with a colon, SEVERITY with a colon, a space
    and a digit, and CONFIDENCE with a colon, a space and a digit, is
    valid. *)
Theorem validate_required_format (before afterId afterSeverity afterConfidence : string)
    (severity confidence : ascii) :
  isDigit severity = true → isDigit confidence = true →
  validateEvaluationResponse
    (before +:+ "PACKET_IDENTIFICATION:" +:+ afterId
       +:+ "SEVERITY" +:+ ": " +:+ String severity
            (afterSeverity +:+ "CONFIDENCE" +:+ ": " +:+ String confidence afterConfidence))
  = Valid.
Proof.
  intros Hs Hc. apply validate_Valid. split; [|split; [|split]].
  - by apply string_app_nonempty.
  - rewrite (test_around rePacketIdentification before "PACKET_IDENTIFICATION:"); done.
  - unfold hasNumberField.
    rewrite (test_app_l (reFieldColon "SEVERITY")); [by rewrite orb_true_r|].
    apply test_app_l, test_app_l, test_here. by apply matchAt_field.
  - unfold hasNumberField.
    rewrite (test_app_l (reFieldColon "CONFIDENCE")); [by rewrite orb_true_r|].
    apply test_app_l, test_app_l.
    change ("SEVERITY" +:+ ": " +:+ String severity
              (afterSeverity +:+ "CONFIDENCE" +:+ ": " +:+ String confidence afterConfidence))
      with (("SEVERITY: " +:+ String severity "")
              +:+ afterSeverity +:+ "CONFIDENCE" +:+ ": "
              +:+ String confidence afterConfidence).
    apply test_app_l, test_app_l, test_here. by apply matchAt_field.
Qed.

(** The answer the prompt describes, on three lines. *)
Lemma validate_required_format_witness :
  isDigit "4" = true ∧ isDigit "7" = true
  ∧ validateEvaluationResponse
      ("" +:+ "PACKET_IDENTIFICATION:" +:+ " Evaluating Packet ID: 7
"
         +:+ "SEVERITY" +:+ ": " +:+ String "4"
              ("5
" +:+ "CONFIDENCE" +:+ ": " +:+ String "7" "5
RATIONALE: harmless"))
    = Valid.
Proof.
  assert (isDigit "4" = true) as Hs by reflexivity.
  assert (isDigit "7" = true) as Hc by reflexivity.
  split; [exact Hs | split; [exact Hc|]].
  exact (validate_required_format "" " Evaluating Packet ID: 7
" "5
" "5
RATIONALE: harmless" "4" "7" Hs Hc).
Defined.

(** The formats the comments of the check list, and the answers they
    rule out. *)
Example validateEvaluationResponse_examples :
  validateEvaluationResponse "" = Invalid "Empty or invalid response" ""
  ∧ validateEvaluationResponse "PACKET IDENTIFICATION: 7 SEVERITY 45 CONFIDENCE 75" = Valid
  ∧ validateEvaluationResponse
      (stars +:+ "PACKET IDENTIFICATION" +:+ stars +:+ ": 7 "
       +:+ stars +:+ "SEVERITY" +:+ stars +:+ ": 10 (Low) "
       +:+ stars +:+ "CONFIDENCE" +:+ stars +:+ ": 95%") = Valid
  ∧ validateEvaluationResponse "packet id: 7 severity: 45% confidence: 75%" = Valid
  ∧ validateEvaluationResponse "SEVERITY: 45 CONFIDENCE: 75"
    = Invalid "Missing PACKET_IDENTIFICATION field (or PACKET IDENTIFICATION with space)"
        "SEVERITY: 45 CONFIDENCE: 75".
Proof. repeat split; by_evaluation. Qed.
